(** * Offline neural TTS application (tts_app.py): worker, controller, protocol

    A shallow embedding of [src/tts_app.py].  The background worker
    ([TTSWorker]) and the foreground controller ([OfflineTTSApp]) are
    written as state-passing programs in a small state monad; the two
    queues that connect them are lists, each stored once and consumed
    from the head.  Everything outside the program (file system, network,
    tar extraction, the sherpa-onnx engine, pygame's mixer, Tk dialogs)
    is an oracle: its outcome is read from an environment record, and
    every invocation is appended to a ghost trace, so that statements
    such as "no engine is constructed" can be written down. *)

From stdpp Require Import base strings gmap list pretty.
From Stdlib Require Import ZArith QArith.

Open Scope Z_scope.

(** ** A state monad for methods that mutate [self] *)

Definition State (S A : Type) : Type := S -> A * S.

Definition ret {S A} (a : A) : State S A := fun s => (a, s).

Definition bind {S A B} (m : State S A) (k : A -> State S B) : State S B :=
  fun s => let '(a, s') := m s in k a s'.

Definition get {S} : State S S := fun s => (s, s).

Definition modify {S} (f : S -> S) : State S unit := fun s => (tt, f s).

Definition exec {S A} (m : State S A) (s : S) : S := snd (m s).

Notation "x <- m ;; k" := (bind m (fun x => k))
  (at level 90, m at next level, right associativity).
Notation "m ;;; k" := (bind m (fun _ => k))
  (at level 90, right associativity).

(** [for x in xs: body x] *)
Fixpoint for_each {S A} (xs : list A) (body : A -> State S unit) : State S unit :=
  match xs with
  | [] => ret tt
  | x :: rest => body x ;;; for_each rest body
  end.

(** A [try:] block: the body either completes or raises an exception, of
    which the program only ever uses the message. *)
Definition Try (S A : Type) : Type := State S (string + A).

Definition lift {S A} (m : State S A) : Try S A := a <- m ;; ret (inr a).

Definition raise {S A} (e : string) : Try S A := ret (inl e).

Definition try_bind {S A B} (m : Try S A) (k : A -> Try S B) : Try S B :=
  r <- m ;; match r with inl e => ret (inl e) | inr a => k a end.

Notation "x <-? m ;; k" := (try_bind m (fun x => k))
  (at level 90, m at next level, right associativity).
Notation "m ;;? k" := (try_bind m (fun _ => k))
  (at level 90, right associativity).

(** [try: body  except Exception as e: handler e] *)
Definition try_except {S} (body : Try S unit) (handler : string -> State S unit)
  : State S unit :=
  r <- body ;; match r with inl e => handler e | inr _ => ret tt end.

Arguments ret {S A} a s /.
Arguments bind {S A B} m k s /.
Arguments get {S} s /.
Arguments modify {S} f s /.
Arguments exec {S A} m s /.
Arguments lift {S A} m s /.
Arguments raise {S A} e s /.
Arguments try_bind {S A B} m k s /.
Arguments try_except {S} body handler s /.

(** ** Python helpers *)

(** Truthiness of an optional string ([None] and the empty string are
    falsy), as tested by [if not file_path] and [if f]. *)
Definition truthy (s : option string) : bool :=
  match s with
  | None => false
  | Some p => negb (String.eqb p "")
  end.

Definition ends_with_slash (a : string) : bool :=
  match String.length a with
  | O => false
  | S n => String.eqb (String.substring n 1 a) "/"
  end.

(** [os.path.join(a, b)] on a POSIX system. *)
Definition os_path_join (a b : string) : string :=
  if String.prefix "/" b then b
  else if String.eqb a "" || ends_with_slash a then a +:+ b
  else a +:+ "/" +:+ b.

(** A string is the UTF-8 encoding of a Python [str]: a character is a
    byte that is not a continuation byte (10xxxxxx) followed by its
    continuation bytes.  Python indexes and slices by character. *)
Definition is_continuation (c : Ascii.ascii) : bool :=
  match c with
  | Ascii.Ascii _ _ _ _ _ _ b6 b7 => b7 && negb b6
  end.

(** [len(s)] *)
Fixpoint code_points (s : string) : nat :=
  match s with
  | EmptyString => O
  | String c rest =>
      if is_continuation c then code_points rest else S (code_points rest)
  end.

(** The rest of [s] after the continuation bytes it starts with. *)
Fixpoint drop_continuation (s : string) : string :=
  match s with
  | EmptyString => EmptyString
  | String c rest => if is_continuation c then drop_continuation rest else s
  end.

(** [s[k:]] *)
Fixpoint drop_chars (k : nat) (s : string) : string :=
  match k with
  | O => s
  | S k' =>
      match s with
      | EmptyString => EmptyString
      | String _ rest => drop_chars k' (drop_continuation rest)
      end
  end.

(** [s[-n:]], for a positive [n] *)
Definition last_chars (n : nat) (s : string) : string :=
  drop_chars (code_points s - n) s.

(** ** Configuration: the static catalog [MODELS] *)

Record ModelInfo := {
  url : string;
  archive : string;
  dir : string;
  onnx : string
}.

Definition MODELS : gmap string ModelInfo :=
  <["Female (Amy)" :=
      {| url := "https://github.com/k2-fsa/sherpa-onnx/releases/download/tts-models/vits-piper-en_US-amy-low.tar.bz2";
         archive := "vits-piper-en_US-amy-low.tar.bz2";
         dir := "vits-piper-en_US-amy-low";
         onnx := "en_US-amy-low.onnx" |}]>
  (<["Male (Ryan)" :=
      {| url := "https://github.com/k2-fsa/sherpa-onnx/releases/download/tts-models/vits-piper-en_US-ryan-low.tar.bz2";
         archive := "vits-piper-en_US-ryan-low.tar.bz2";
         dir := "vits-piper-en_US-ryan-low";
         onnx := "en_US-ryan-low.onnx" |}]> ∅).

(** ** Messages on the two queues *)

(** The dictionaries put on the command queue, by their ['action']. *)
Inductive Command :=
| load_model_cmd (voice_name : string)
| generate_cmd (text : string) (file_path : option string)
| quit_cmd.

(** The dictionaries put on the result queue, by their ['type']. *)
Inductive Result :=
| log_result (msg : string)
| model_loaded (voice : string)
| generation_complete (file_path : string) (is_temp : bool).

Definition is_log (r : Result) : bool :=
  match r with log_result _ => true | _ => false end.

Definition is_model_loaded (r : Result) : bool :=
  match r with model_loaded _ => true | _ => false end.

(** ** The sherpa-onnx engine, as far as the program sees it *)

Record OfflineTtsConfig := {
  model : string;
  tokens : string;
  data_dir : string;
  num_threads : Z;
  provider : string
}.

(** An engine handle; it is bound to the configuration it was built from. *)
Record OfflineTts := { config : OfflineTtsConfig }.

(** What [tts.generate] returns.  Samples are floating-point numbers the
    program never inspects; they are carried as rationals. *)
Record GeneratedAudio := {
  samples : list Q;
  sample_rate : Z
}.

(** ** The worker thread *)

Module TTSWorker.

(** Calls that leave the program (ghost trace). *)
Inductive Call :=
| urlretrieve (url filename : string)
| tar_extractall (filename : string)
| OfflineTts_new (cfg : OfflineTtsConfig)
| tts_generate (engine : OfflineTts) (text : string)
| mkstemp (suffix : string)
| wavfile_write (file_path : string) (rate : Z) (data : list Q).

Definition is_construction (c : Call) : bool :=
  match c with OfflineTts_new _ => true | _ => false end.

(** What the outside world answers while one command is executed. *)
Record Env := {
  (** [os.path.exists] *)
  path_exists : string -> bool;
  (** the successive [(blocknum, blocksize, totalsize)] that
      [urlretrieve] passes to its report hook *)
  reporthook_calls : list (Z * Z * Z);
  (** [false]: [urlretrieve] raises *)
  urlretrieve_ok : bool;
  (** [false]: opening or extracting the archive raises *)
  extractall_ok : bool;
  (** [Some e]: building the configuration or the engine raises [e] *)
  OfflineTts_raises : option string;
  (** [inl e]: [tts.generate] raises [e] *)
  generate_outcome : string + GeneratedAudio;
  (** the elapsed time as [f"{elapsed:.2f}"] prints it *)
  elapsed : string;
  (** [inl e]: [tempfile.mkstemp] (or closing its descriptor) raises [e];
      [inr p]: it created the file [p] *)
  mkstemp_outcome : string + string;
  (** [Some e]: converting or writing the samples raises [e] *)
  wavfile_write_raises : option string
}.

(** The fields of [self], the result queue it writes to, and the trace. *)
Record t := {
  tts : option OfflineTts;
  current_voice_name : option string;
  running : bool;
  result_queue : list Result;
  calls : list Call
}.

(** [__init__] *)
Definition init : t :=
  {| tts := None; current_voice_name := None; running := true;
     result_queue := []; calls := [] |}.

Definition put_result (r : Result) : State t unit :=
  modify (fun w =>
    {| tts := tts w; current_voice_name := current_voice_name w;
       running := running w; result_queue := result_queue w ++ [r];
       calls := calls w |}).

Definition call (c : Call) : State t unit :=
  modify (fun w =>
    {| tts := tts w; current_voice_name := current_voice_name w;
       running := running w; result_queue := result_queue w;
       calls := calls w ++ [c] |}).

Definition set_tts (e : OfflineTts) : State t unit :=
  modify (fun w =>
    {| tts := Some e; current_voice_name := current_voice_name w;
       running := running w; result_queue := result_queue w;
       calls := calls w |}).

Definition set_current_voice_name (n : string) : State t unit :=
  modify (fun w =>
    {| tts := tts w; current_voice_name := Some n;
       running := running w; result_queue := result_queue w;
       calls := calls w |}).

Definition set_running (b : bool) : State t unit :=
  modify (fun w =>
    {| tts := tts w; current_voice_name := current_voice_name w;
       running := b; result_queue := result_queue w;
       calls := calls w |}).

Definition log (msg : string) : State t unit := put_result (log_result msg).

(** [result_queue.get_nowait()], as the controller's thread runs it on
    the shared queue; [None] is [queue.Empty]. *)
Definition result_queue_get : State t (option Result) :=
  fun w =>
    (head (result_queue w),
     {| tts := tts w; current_voice_name := current_voice_name w;
        running := running w; result_queue := tail (result_queue w);
        calls := calls w |}).

(** The report hook of [download_file].  Python computes the percentage
    with a float division truncated by [int]; on the non-negative sizes
    [urlretrieve] reports this is the integer quotient. *)
Definition _reporthook (callback : option (string -> State t unit))
    (b : Z * Z * Z) : State t unit :=
  let '(blocknum, blocksize, totalsize) := b in
  match callback with
  | Some cb =>
      if 0 <? totalsize
      then cb ("Downloading: " +:+ pretty (Z.quot (blocknum * blocksize * 100) totalsize) +:+ "%")
      else ret tt
  | None => ret tt
  end.

Definition download_file (env : Env) (url filename : string)
    (callback : option (string -> State t unit)) : State t bool :=
  call (urlretrieve url filename) ;;;
  for_each (reporthook_calls env) (_reporthook callback) ;;;
  ret (urlretrieve_ok env).

Definition extract_file (env : Env) (filename : string) : State t bool :=
  call (tar_extractall filename) ;;;
  ret (extractall_ok env).

Section Methods.

(** Whether [import sherpa_onnx] succeeded. *)
Variable HAS_TTS : bool.

Definition load_engine (env : Env) (voice_name : string) (model_info : ModelInfo)
    (model_onnx : string) : State t unit :=
  try_except
    (lift (log "Loading Engine...") ;;?
     let cfg :=
       {| model := model_onnx;
          tokens := os_path_join (dir model_info) "tokens.txt";
          data_dir := os_path_join (dir model_info) "espeak-ng-data";
          num_threads := 1;
          provider := "cpu" |} in
     lift (call (OfflineTts_new cfg)) ;;?
     match OfflineTts_raises env with
     | Some e => raise e
     | None =>
         lift (set_tts {| config := cfg |}) ;;?
         lift (set_current_voice_name voice_name) ;;?
         lift (log ("Loaded: " +:+ voice_name)) ;;?
         lift (put_result (model_loaded voice_name))
     end)
    (fun e => log ("Error: " +:+ e)).

Definition load_model (env : Env) (voice_name : string) : State t unit :=
  if negb HAS_TTS then log "Error: Sherpa-ONNX missing."
  else
    w <- get ;;
    if bool_decide (is_Some (tts w)) &&
       bool_decide (current_voice_name w = Some voice_name)
    then
      log ("Voice '" +:+ voice_name +:+ "' already loaded.") ;;;
      put_result (model_loaded voice_name)
    else
      match MODELS !! voice_name with
      | None => log "Error: Unknown voice."
      | Some model_info =>
          let model_onnx := os_path_join (dir model_info) (onnx model_info) in
          if negb (path_exists env model_onnx) then
            log ("Downloading " +:+ voice_name +:+ "...") ;;;
            downloaded <-
              (if negb (path_exists env (archive model_info))
               then download_file env (url model_info) (archive model_info) (Some log)
               else ret true) ;;
            if negb downloaded then log "Download failed."
            else
              log "Extracting..." ;;;
              _ <- extract_file env (archive model_info) ;;
              load_engine env voice_name model_info model_onnx
          else load_engine env voice_name model_info model_onnx
      end.

Definition generate_speech (env : Env) (text : string) (file_path : option string)
    : State t unit :=
  w <- get ;;
  match tts w with
  | None => log "Model not loaded."
  | Some engine =>
      try_except
        (lift (log "Generating...") ;;?
         lift (call (tts_generate engine text)) ;;?
         audio <-? ret (generate_outcome env) ;;
         lift (log ("Done (" +:+ elapsed env +:+ "s)")) ;;?
         dest <-?
           (if negb (truthy file_path)
            then
              lift (call (mkstemp ".wav")) ;;?
              p <-? ret (mkstemp_outcome env) ;;
              ret (inr (p, true))
            else ret (inr (default "" file_path, false))) ;;
         let '(path, is_temp) := dest in
         lift (call (wavfile_write path (sample_rate audio) (samples audio))) ;;?
         match wavfile_write_raises env with
         | Some e => raise e
         | None => lift (put_result (generation_complete path is_temp))
         end)
        (fun e => log ("Gen Error: " +:+ e))
  end.

(** One iteration of the loop of [run], for a command taken off the
    command queue; the [bool] is [false] after [break]. *)
Definition handle (env : Env) (cmd : Command) : State t bool :=
  match cmd with
  | load_model_cmd voice_name => load_model env voice_name ;;; ret true
  | generate_cmd text file_path => generate_speech env text file_path ;;; ret true
  | quit_cmd => set_running false ;;; ret false
  end.

(** The loop of [run] over the commands that arrive, each with the
    environment it executes in.  An empty queue is the [queue.Empty]
    branch: the thread keeps polling and nothing changes. *)
Fixpoint run_loop (cmds : list (Command * Env)) : State t unit :=
  match cmds with
  | [] => ret tt
  | (cmd, env) :: rest =>
      continue <- handle env cmd ;;
      if continue then run_loop rest else ret tt
  end.

Definition run (cmds : list (Command * Env)) : State t unit :=
  log "Ready. Select a voice to begin." ;;;
  run_loop cmds.

(** Worker states that some run of the thread passes through, while the
    other thread takes results off the queue. *)
Inductive reachable : t -> Prop :=
| reachable_start : reachable (exec (log "Ready. Select a voice to begin.") init)
| reachable_handle w env cmd :
    reachable w -> running w = true -> reachable (exec (handle env cmd) w)
| reachable_get w :
    reachable w -> reachable (exec result_queue_get w).

(** What a method adds to the result queue, and to the trace. *)
Definition emitted (m : State t unit) (w : t) : list Result :=
  drop (length (result_queue w)) (result_queue (exec m w)).

Definition called (m : State t unit) (w : t) : list Call :=
  drop (length (calls w)) (calls (exec m w)).

End Methods.

End TTSWorker.

(** ** The Tk application (foreground controller) *)

Module OfflineTTSApp.

(** The [state] option of a button. *)
Inductive tk_state := NORMAL | DISABLED.

#[global] Instance tk_state_eq_dec : EqDecision tk_state.
Proof. solve_decision. Defined.

(** Calls to [pygame.mixer.music] (ghost trace). *)
Inductive MixerCall :=
| music_load (path : string)
| music_play
| music_pause
| music_unpause
| music_stop
| mixer_quit.

(** Message boxes shown to the user (ghost trace). *)
Inductive Dialog :=
| showerror (title message : string)
| showinfo (title message : string).

(** What the mixer answers when a file is loaded and played. *)
Inductive MixerOutcome :=
| mixer_ok
| music_load_raises (e : string)
| music_play_raises (e : string).

(** The fields of [self] the methods below touch: the audio state, the
    command queue it writes to, the widgets, and the two traces. *)
Record t := {
  audio_file : option string;
  is_playing : bool;
  is_paused : bool;
  cmd_queue : list Command;
  btn_gen_play : tk_state;
  btn_pause : tk_state;
  btn_resume : tk_state;
  btn_stop : tk_state;
  btn_ff : tk_state;
  btn_save : tk_state;
  lbl_status : string;
  voice_combo : string;
  log_text : string;
  mixer : list MixerCall;
  dialogs : list Dialog
}.

(** [__init__] and [create_widgets] *)
Definition init : t :=
  {| audio_file := None; is_playing := false; is_paused := false;
     cmd_queue := [];
     btn_gen_play := DISABLED; btn_pause := DISABLED; btn_resume := DISABLED;
     btn_stop := DISABLED; btn_ff := DISABLED; btn_save := DISABLED;
     lbl_status := "Initializing..."; voice_combo := "Female (Amy)";
     log_text := ""; mixer := []; dialogs := [] |}.

Definition set_audio_file (p : string) : State t unit :=
  modify (fun a =>
    {| audio_file := Some p; is_playing := is_playing a;
       is_paused := is_paused a; cmd_queue := cmd_queue a;
       btn_gen_play := btn_gen_play a; btn_pause := btn_pause a;
       btn_resume := btn_resume a; btn_stop := btn_stop a;
       btn_ff := btn_ff a; btn_save := btn_save a;
       lbl_status := lbl_status a; voice_combo := voice_combo a;
       log_text := log_text a; mixer := mixer a; dialogs := dialogs a |}).

Definition set_is_playing (b : bool) : State t unit :=
  modify (fun a =>
    {| audio_file := audio_file a; is_playing := b; is_paused := is_paused a;
       cmd_queue := cmd_queue a; btn_gen_play := btn_gen_play a;
       btn_pause := btn_pause a; btn_resume := btn_resume a;
       btn_stop := btn_stop a; btn_ff := btn_ff a; btn_save := btn_save a;
       lbl_status := lbl_status a; voice_combo := voice_combo a;
       log_text := log_text a; mixer := mixer a; dialogs := dialogs a |}).

Definition set_is_paused (b : bool) : State t unit :=
  modify (fun a =>
    {| audio_file := audio_file a; is_playing := is_playing a;
       is_paused := b; cmd_queue := cmd_queue a;
       btn_gen_play := btn_gen_play a; btn_pause := btn_pause a;
       btn_resume := btn_resume a; btn_stop := btn_stop a;
       btn_ff := btn_ff a; btn_save := btn_save a;
       lbl_status := lbl_status a; voice_combo := voice_combo a;
       log_text := log_text a; mixer := mixer a; dialogs := dialogs a |}).

Definition cmd_queue_put (c : Command) : State t unit :=
  modify (fun a =>
    {| audio_file := audio_file a; is_playing := is_playing a;
       is_paused := is_paused a; cmd_queue := cmd_queue a ++ [c];
       btn_gen_play := btn_gen_play a; btn_pause := btn_pause a;
       btn_resume := btn_resume a; btn_stop := btn_stop a;
       btn_ff := btn_ff a; btn_save := btn_save a;
       lbl_status := lbl_status a; voice_combo := voice_combo a;
       log_text := log_text a; mixer := mixer a; dialogs := dialogs a |}).

Definition btn_gen_play_config (state : tk_state) : State t unit :=
  modify (fun a =>
    {| audio_file := audio_file a; is_playing := is_playing a;
       is_paused := is_paused a; cmd_queue := cmd_queue a;
       btn_gen_play := state; btn_pause := btn_pause a;
       btn_resume := btn_resume a; btn_stop := btn_stop a;
       btn_ff := btn_ff a; btn_save := btn_save a;
       lbl_status := lbl_status a; voice_combo := voice_combo a;
       log_text := log_text a; mixer := mixer a; dialogs := dialogs a |}).

Definition btn_pause_config (state : tk_state) : State t unit :=
  modify (fun a =>
    {| audio_file := audio_file a; is_playing := is_playing a;
       is_paused := is_paused a; cmd_queue := cmd_queue a;
       btn_gen_play := btn_gen_play a; btn_pause := state;
       btn_resume := btn_resume a; btn_stop := btn_stop a;
       btn_ff := btn_ff a; btn_save := btn_save a;
       lbl_status := lbl_status a; voice_combo := voice_combo a;
       log_text := log_text a; mixer := mixer a; dialogs := dialogs a |}).

Definition btn_resume_config (state : tk_state) : State t unit :=
  modify (fun a =>
    {| audio_file := audio_file a; is_playing := is_playing a;
       is_paused := is_paused a; cmd_queue := cmd_queue a;
       btn_gen_play := btn_gen_play a; btn_pause := btn_pause a;
       btn_resume := state; btn_stop := btn_stop a; btn_ff := btn_ff a;
       btn_save := btn_save a; lbl_status := lbl_status a;
       voice_combo := voice_combo a; log_text := log_text a;
       mixer := mixer a; dialogs := dialogs a |}).

Definition btn_stop_config (state : tk_state) : State t unit :=
  modify (fun a =>
    {| audio_file := audio_file a; is_playing := is_playing a;
       is_paused := is_paused a; cmd_queue := cmd_queue a;
       btn_gen_play := btn_gen_play a; btn_pause := btn_pause a;
       btn_resume := btn_resume a; btn_stop := state; btn_ff := btn_ff a;
       btn_save := btn_save a; lbl_status := lbl_status a;
       voice_combo := voice_combo a; log_text := log_text a;
       mixer := mixer a; dialogs := dialogs a |}).

Definition btn_ff_config (state : tk_state) : State t unit :=
  modify (fun a =>
    {| audio_file := audio_file a; is_playing := is_playing a;
       is_paused := is_paused a; cmd_queue := cmd_queue a;
       btn_gen_play := btn_gen_play a; btn_pause := btn_pause a;
       btn_resume := btn_resume a; btn_stop := btn_stop a; btn_ff := state;
       btn_save := btn_save a; lbl_status := lbl_status a;
       voice_combo := voice_combo a; log_text := log_text a;
       mixer := mixer a; dialogs := dialogs a |}).

Definition btn_save_config (state : tk_state) : State t unit :=
  modify (fun a =>
    {| audio_file := audio_file a; is_playing := is_playing a;
       is_paused := is_paused a; cmd_queue := cmd_queue a;
       btn_gen_play := btn_gen_play a; btn_pause := btn_pause a;
       btn_resume := btn_resume a; btn_stop := btn_stop a;
       btn_ff := btn_ff a; btn_save := state; lbl_status := lbl_status a;
       voice_combo := voice_combo a; log_text := log_text a;
       mixer := mixer a; dialogs := dialogs a |}).

Definition lbl_status_config (text : string) : State t unit :=
  modify (fun a =>
    {| audio_file := audio_file a; is_playing := is_playing a;
       is_paused := is_paused a; cmd_queue := cmd_queue a;
       btn_gen_play := btn_gen_play a; btn_pause := btn_pause a;
       btn_resume := btn_resume a; btn_stop := btn_stop a;
       btn_ff := btn_ff a; btn_save := btn_save a; lbl_status := text;
       voice_combo := voice_combo a; log_text := log_text a;
       mixer := mixer a; dialogs := dialogs a |}).

Definition voice_combo_set (v : string) : State t unit :=
  modify (fun a =>
    {| audio_file := audio_file a; is_playing := is_playing a;
       is_paused := is_paused a; cmd_queue := cmd_queue a;
       btn_gen_play := btn_gen_play a; btn_pause := btn_pause a;
       btn_resume := btn_resume a; btn_stop := btn_stop a;
       btn_ff := btn_ff a; btn_save := btn_save a;
       lbl_status := lbl_status a; voice_combo := v; log_text := log_text a;
       mixer := mixer a; dialogs := dialogs a |}).

Definition log_text_insert (s : string) : State t unit :=
  modify (fun a =>
    {| audio_file := audio_file a; is_playing := is_playing a;
       is_paused := is_paused a; cmd_queue := cmd_queue a;
       btn_gen_play := btn_gen_play a; btn_pause := btn_pause a;
       btn_resume := btn_resume a; btn_stop := btn_stop a;
       btn_ff := btn_ff a; btn_save := btn_save a;
       lbl_status := lbl_status a; voice_combo := voice_combo a;
       log_text := log_text a +:+ s; mixer := mixer a;
       dialogs := dialogs a |}).

Definition mixer_call (c : MixerCall) : State t unit :=
  modify (fun a =>
    {| audio_file := audio_file a; is_playing := is_playing a;
       is_paused := is_paused a; cmd_queue := cmd_queue a;
       btn_gen_play := btn_gen_play a; btn_pause := btn_pause a;
       btn_resume := btn_resume a; btn_stop := btn_stop a;
       btn_ff := btn_ff a; btn_save := btn_save a;
       lbl_status := lbl_status a; voice_combo := voice_combo a;
       log_text := log_text a; mixer := mixer a ++ [c];
       dialogs := dialogs a |}).

Definition show (d : Dialog) : State t unit :=
  modify (fun a =>
    {| audio_file := audio_file a; is_playing := is_playing a;
       is_paused := is_paused a; cmd_queue := cmd_queue a;
       btn_gen_play := btn_gen_play a; btn_pause := btn_pause a;
       btn_resume := btn_resume a; btn_stop := btn_stop a;
       btn_ff := btn_ff a; btn_save := btn_save a;
       lbl_status := lbl_status a; voice_combo := voice_combo a;
       log_text := log_text a; mixer := mixer a;
       dialogs := dialogs a ++ [d] |}).


(** [command_queue.get()], as the worker's thread runs it on the shared
    queue; [None] is [queue.Empty]. *)
Definition cmd_queue_get : State t (option Command) :=
  fun a =>
    (head (cmd_queue a),
     {| audio_file := audio_file a; is_playing := is_playing a;
        is_paused := is_paused a; cmd_queue := tail (cmd_queue a);
        btn_gen_play := btn_gen_play a; btn_pause := btn_pause a;
        btn_resume := btn_resume a; btn_stop := btn_stop a;
        btn_ff := btn_ff a; btn_save := btn_save a;
        lbl_status := lbl_status a; voice_combo := voice_combo a;
        log_text := log_text a; mixer := mixer a; dialogs := dialogs a |}).

Definition newline : string := String (Ascii.ascii_of_nat 10) "".

Definition log (msg : string) : State t unit :=
  log_text_insert ("> " +:+ msg +:+ newline).

Definition change_voice (voice_name : string) : State t unit :=
  btn_gen_play_config DISABLED ;;;
  cmd_queue_put (load_model_cmd voice_name).

Definition update_media_buttons : State t unit :=
  a <- get ;;
  let state_play := if is_paused a then NORMAL else DISABLED in
  let state_pause := if is_playing a && negb (is_paused a) then NORMAL else DISABLED in
  let state_stop := if is_playing a then NORMAL else DISABLED in
  btn_pause_config state_pause ;;;
  btn_resume_config state_play ;;;
  btn_stop_config state_stop ;;;
  btn_ff_config state_stop.

Section Methods.

(** Whether [import pygame] succeeded. *)
Variable HAS_PYGAME : bool.

(** The transport calls of the mixer ([pause], [unpause], [stop]) are
    taken not to raise; only [load] and [play] sit in a [try]. *)
Definition load_and_play_audio (out : MixerOutcome) (path : string) : State t unit :=
  if negb HAS_PYGAME then show (showerror "Error" "Pygame not installed.")
  else
    try_except
      (lift (mixer_call (music_load path)) ;;?
       match out with music_load_raises e => raise e | _ => ret (inr tt) end ;;?
       lift (mixer_call music_play) ;;?
       match out with music_play_raises e => raise e | _ => ret (inr tt) end ;;?
       lift (set_is_playing true) ;;?
       lift (set_is_paused false) ;;?
       lift (set_audio_file path) ;;?
       lift update_media_buttons)
      (fun e => log ("Playback error: " +:+ e)).

Definition on_pause : State t unit :=
  a <- get ;;
  if HAS_PYGAME && is_playing a && negb (is_paused a) then
    mixer_call music_pause ;;;
    set_is_paused true ;;;
    update_media_buttons
  else ret tt.

Definition on_resume : State t unit :=
  a <- get ;;
  if HAS_PYGAME && is_paused a then
    mixer_call music_unpause ;;;
    set_is_paused false ;;;
    update_media_buttons
  else ret tt.

Definition on_stop : State t unit :=
  if HAS_PYGAME then
    mixer_call music_stop ;;;
    set_is_playing false ;;;
    set_is_paused false ;;;
    update_media_buttons
  else ret tt.

Definition on_ff : State t unit :=
  a <- get ;;
  if HAS_PYGAME && is_playing a then log "Fast Forwarding (Experimental)..."
  else ret tt.

(** [text] is the content of the text widget after [strip()]. *)
Definition on_gen_play (text : string) : State t unit :=
  if negb (String.eqb text "") then
    on_stop ;;;
    btn_gen_play_config DISABLED ;;;
    cmd_queue_put (generate_cmd text None)
  else ret tt.

(** [text] as above; [f] is what the file dialog returns (empty when the
    user cancels), and is only asked for when [text] is not empty. *)
Definition on_save (text f : string) : State t unit :=
  if String.eqb text "" then ret tt
  else if negb (String.eqb f "") then cmd_queue_put (generate_cmd text (Some f))
  else ret tt.

(** The window is closed: the worker is told to quit.  The window is then
    destroyed, so no event follows this one in a run of the program. *)
Definition on_closing : State t unit :=
  (if HAS_PYGAME then mixer_call mixer_quit else ret tt) ;;;
  cmd_queue_put quit_cmd.

(** The body of the loop of [process_worker_results] for one result taken
    off the queue; [false] is the [return] that leaves the loop. *)
Definition process_result (out : MixerOutcome) (res : Result) : State t bool :=
  match res with
  | log_result msg =>
      log msg ;;;
      lbl_status_config (last_chars 30 msg) ;;;
      ret true
  | model_loaded voice =>
      btn_gen_play_config NORMAL ;;;
      btn_save_config NORMAL ;;;
      lbl_status_config ("Ready: " +:+ voice) ;;;
      voice_combo_set voice ;;;
      ret true
  | generation_complete file_path is_temp =>
      btn_gen_play_config NORMAL ;;;
      if String.eqb file_path "" then ret false
      else
        (if is_temp then load_and_play_audio out file_path
         else show (showinfo "Saved" ("File saved: " +:+ file_path))) ;;;
        ret true
  end.

(** One poll: drain [res_queue] until it is empty or the loop returns.
    The result is what is left on the queue.  [outs] gives the mixer's
    answer for the successive results (all well when it runs out). *)
Fixpoint process_worker_results (outs : list MixerOutcome) (res_queue : list Result)
    : State t (list Result) :=
  match res_queue with
  | [] => ret []
  | res :: rest =>
      continue <- process_result (hd mixer_ok outs) res ;;
      if continue then process_worker_results (tl outs) rest else ret rest
  end.

(** What can happen to the controller: a user action, or a result taken
    off the result queue. *)
Inductive Event :=
| voice_selected (voice_name : string)
| gen_play_clicked (text : string)
| save_clicked (text f : string)
| pause_clicked
| resume_clicked
| stop_clicked
| ff_clicked
| window_closed
| result_received (res : Result) (out : MixerOutcome).

Definition step (ev : Event) : State t unit :=
  match ev with
  | voice_selected voice_name => change_voice voice_name
  | gen_play_clicked text => on_gen_play text
  | save_clicked text f => on_save text f
  | pause_clicked => on_pause
  | resume_clicked => on_resume
  | stop_clicked => on_stop
  | ff_clicked => on_ff
  | window_closed => on_closing
  | result_received res out => process_result out res ;;; ret tt
  end.

Definition run_events (evs : list Event) : State t unit := for_each evs step.

(** Controller states that some run passes through, while the other
    thread takes commands off the queue. *)
Inductive reachable : t -> Prop :=
| reachable_init : reachable init
| reachable_step a ev : reachable a -> reachable (exec (step ev) a)
| reachable_get a : reachable a -> reachable (exec cmd_queue_get a).

End Methods.

(** The playback state of section 4.2, read off the two flags. *)
Inductive PlaybackState := Stopped | Playing | Paused.

Definition playback_state (a : t) : PlaybackState :=
  if is_playing a then (if is_paused a then Paused else Playing) else Stopped.

End OfflineTTSApp.

(** ** The two threads and their queues *)

Module System.

(** The command queue is [cmd_queue] of the application, the result queue
    is [result_queue] of the worker: each is one list, written at the tail
    by its producer and read at the head by the other thread.  A [work]
    step is one iteration of the worker's loop, a [poll] step one run of
    [process_worker_results], a [gui] step one user action. *)
Record t := {
  app : OfflineTTSApp.t;
  worker : TTSWorker.t
}.

Inductive Step :=
| gui (ev : OfflineTTSApp.Event)
| work (env : TTSWorker.Env)
| poll (outs : list OfflineTTSApp.MixerOutcome).

Definition is_user_event (ev : OfflineTTSApp.Event) : bool :=
  match ev with OfflineTTSApp.result_received _ _ => false | _ => true end.

Definition with_result_queue (q : list Result) (w : TTSWorker.t) : TTSWorker.t :=
  {| TTSWorker.tts := TTSWorker.tts w;
     TTSWorker.current_voice_name := TTSWorker.current_voice_name w;
     TTSWorker.running := TTSWorker.running w;
     TTSWorker.result_queue := q;
     TTSWorker.calls := TTSWorker.calls w |}.

Section Threads.

Variables HAS_TTS HAS_PYGAME : bool.

(** The state once both threads are started. *)
Definition init : t :=
  {| app := OfflineTTSApp.init;
     worker := exec (TTSWorker.log "Ready. Select a voice to begin.") TTSWorker.init |}.

Definition step (st : Step) (s : t) : t :=
  match st with
  | gui ev =>
      if is_user_event ev
      then {| app := exec (OfflineTTSApp.step HAS_PYGAME ev) (app s); worker := worker s |}
      else s
  | work env =>
      if TTSWorker.running (worker s) then
        match OfflineTTSApp.cmd_queue_get (app s) with
        | (Some cmd, a) =>
            {| app := a;
               worker := exec (TTSWorker.handle HAS_TTS env cmd) (worker s) |}
        | (None, _) => s
        end
      else s
  | poll outs =>
      let '(rest, a) :=
        OfflineTTSApp.process_worker_results HAS_PYGAME outs
          (TTSWorker.result_queue (worker s)) (app s) in
      {| app := a; worker := with_result_queue rest (worker s) |}
  end.

Definition run (sts : list Step) (s : t) : t := foldl (fun s st => step st s) s sts.

End Threads.

End System.

(** * Specification vocabulary *)

(** ** For the worker: an invariant, and concrete worlds and states *)

Module WorkerVocabulary.
Import TTSWorker.

(** The log lines one download produces through the report hook. *)
Definition progress_logs (hooks : list (Z * Z * Z)) : list Result :=
  flat_map (fun b : Z * Z * Z =>
    let '(blocknum, blocksize, totalsize) := b in
    if 0 <? totalsize
    then [log_result ("Downloading: " +:+
            pretty (Z.quot (blocknum * blocksize * 100) totalsize) +:+ "%")]
    else []) hooks.

(** An installed engine was built by [load_model]: the library is
    present and the engine's voice is in the catalog. *)
Definition engine_inv (HAS_TTS : bool) (w : t) : Prop :=
  is_Some (tts w) ->
  HAS_TTS = true /\
  exists n, current_voice_name w = Some n /\ is_Some (MODELS !! n).

(** Every model is installed and every collaborator succeeds. *)
Definition env_installed : Env :=
  {| path_exists := fun _ => true;
     reporthook_calls := [];
     urlretrieve_ok := true;
     extractall_ok := true;
     OfflineTts_raises := None;
     generate_outcome := inr {| samples := []; sample_rate := 16000 |};
     elapsed := "0.10";
     mkstemp_outcome := inr "/tmp/tmpabc.wav";
     wavfile_write_raises := None |}.

(** Nothing is installed and the network is down. *)
Definition env_offline : Env :=
  {| path_exists := fun _ => false;
     reporthook_calls := [];
     urlretrieve_ok := false;
     extractall_ok := true;
     OfflineTts_raises := None;
     generate_outcome := inr {| samples := []; sample_rate := 16000 |};
     elapsed := "0.10";
     mkstemp_outcome := inr "/tmp/tmpabc.wav";
     wavfile_write_raises := None |}.

(** The archive of Amy is on disk, its model is not; unpacking the
    archive raises, and the engine can still be built afterwards. *)
Definition env_unpack_fails : Env :=
  {| path_exists := fun p => String.eqb p "vits-piper-en_US-amy-low.tar.bz2";
     reporthook_calls := [];
     urlretrieve_ok := true;
     extractall_ok := false;
     OfflineTts_raises := None;
     generate_outcome := inr {| samples := []; sample_rate := 16000 |};
     elapsed := "0.10";
     mkstemp_outcome := inr "/tmp/tmpabc.wav";
     wavfile_write_raises := None |}.

(** The models are installed but the engine cannot be built. *)
Definition env_engine_fails : Env :=
  {| path_exists := fun _ => true;
     reporthook_calls := [];
     urlretrieve_ok := true;
     extractall_ok := true;
     OfflineTts_raises := Some "bad model";
     generate_outcome := inr {| samples := []; sample_rate := 16000 |};
     elapsed := "0.10";
     mkstemp_outcome := inr "/tmp/tmpabc.wav";
     wavfile_write_raises := None |}.

(** The thread has started and logged its greeting. *)
Definition started : t := exec (log "Ready. Select a voice to begin.") init.

(** Amy has been loaded from the local installation. *)
Definition amy_loaded : t :=
  exec (handle true env_installed (load_model_cmd "Female (Amy)")) started.

Definition amy_engine : OfflineTts :=
  {| config :=
       {| model := "vits-piper-en_US-amy-low/en_US-amy-low.onnx";
          tokens := "vits-piper-en_US-amy-low/tokens.txt";
          data_dir := "vits-piper-en_US-amy-low/espeak-ng-data";
          num_threads := 1;
          provider := "cpu" |} |}.

(** What [tempfile.mkstemp] guarantees: the file it returns did not exist
    when the command started. *)
Definition mkstemp_fresh (env : Env) : Prop :=
  forall p, mkstemp_outcome env = inr p -> path_exists env p = false.

(** Calls that fetch or unpack a model. *)
Definition is_acquisition (c : Call) : bool :=
  match c with urlretrieve _ _ | tar_extractall _ => true | _ => false end.

Definition is_urlretrieve (c : Call) : bool :=
  match c with urlretrieve _ _ => true | _ => false end.

(** The engine [load_model] builds for a catalog entry. *)
Definition engine_for (model_info : ModelInfo) : OfflineTts :=
  {| config :=
       {| model := os_path_join (dir model_info) (onnx model_info);
          tokens := os_path_join (dir model_info) "tokens.txt";
          data_dir := os_path_join (dir model_info) "espeak-ng-data";
          num_threads := 1;
          provider := "cpu" |} |}.

(** The installed engine is the one of the current voice. *)
Definition engine_matches (w : t) : Prop :=
  forall e, tts w = Some e ->
  exists n model_info,
    current_voice_name w = Some n /\
    MODELS !! n = Some model_info /\
    e = engine_for model_info.

(** The terminal result that answers a command. *)
Definition answers (cmd : Command) (r : Result) : Prop :=
  match cmd, r with
  | load_model_cmd voice_name, model_loaded voice => voice = voice_name
  | generate_cmd _ _, generation_complete _ _ => True
  | _, _ => False
  end.

(** Zero or more Log results, then at most one terminal result, which
    satisfies [allowed]. *)
Definition logs_then (allowed : Result -> Prop) (out : list Result) : Prop :=
  exists logs terminal,
    out = logs ++ option_list terminal /\
    Forall (fun r => is_log r = true) logs /\
    forall r, terminal = Some r -> is_log r = false /\ allowed r.

(** The catalog entry of Ryan. *)
Definition ryan_info : ModelInfo :=
  {| url := "https://github.com/k2-fsa/sherpa-onnx/releases/download/tts-models/vits-piper-en_US-ryan-low.tar.bz2";
     archive := "vits-piper-en_US-ryan-low.tar.bz2";
     dir := "vits-piper-en_US-ryan-low";
     onnx := "en_US-ryan-low.onnx" |}.

(** The engine of Amy is installed but synthesis raises. *)
Definition env_synthesis_fails : Env :=
  {| path_exists := fun _ => true;
     reporthook_calls := [];
     urlretrieve_ok := true;
     extractall_ok := true;
     OfflineTts_raises := None;
     generate_outcome := inl "bad input";
     elapsed := "0.10";
     mkstemp_outcome := inr "/tmp/tmpabc.wav";
     wavfile_write_raises := None |}.

(** Synthesis works but the file cannot be written. *)
Definition env_write_fails : Env :=
  {| path_exists := fun _ => true;
     reporthook_calls := [];
     urlretrieve_ok := true;
     extractall_ok := true;
     OfflineTts_raises := None;
     generate_outcome := inr {| samples := []; sample_rate := 16000 |};
     elapsed := "0.10";
     mkstemp_outcome := inr "/tmp/tmpabc.wav";
     wavfile_write_raises := Some "disk full" |}.

(** Nothing is installed; the download reports its progress, with and
    without a known total size, and then fails. *)
Definition env_download_breaks : Env :=
  {| path_exists := fun _ => false;
     reporthook_calls := [(0, 8192, 64000); (1, 8192, -1); (4, 8192, 64000)];
     urlretrieve_ok := false;
     extractall_ok := true;
     OfflineTts_raises := None;
     generate_outcome := inr {| samples := []; sample_rate := 16000 |};
     elapsed := "0.10";
     mkstemp_outcome := inr "/tmp/tmpabc.wav";
     wavfile_write_raises := None |}.

End WorkerVocabulary.

(** ** For the controller: its invariant, and a concrete state *)

Module AppVocabulary.
Import OfflineTTSApp.

(** Events that are not a terminal result: user actions and Log results. *)
Definition non_terminal (ev : Event) : bool :=
  match ev with
  | result_received (model_loaded _) _ => false
  | result_received (generation_complete _ _) _ => false
  | _ => true
  end.

(** The transport buttons are the image of the two flags under
    [update_media_buttons], and [is_paused] is only set while playing. *)
Definition buttons_inv (a : t) : Prop :=
  (is_paused a = true -> is_playing a = true) /\
  btn_pause a = (if is_playing a && negb (is_paused a) then NORMAL else DISABLED) /\
  btn_resume a = (if is_paused a then NORMAL else DISABLED) /\
  btn_stop a = (if is_playing a then NORMAL else DISABLED).

(** The controller after a temporary file arrived and started playing. *)
Definition playing_app : t :=
  exec (step true
          (result_received (generation_complete "/tmp/tmpabc.wav" true) mixer_ok))
       init.

(** The controller after Pause was clicked while playing. *)
Definition paused_app : t := exec (step true pause_clicked) playing_app.

(** The controller of a program started without pygame, after a
    temporary file arrived. *)
Definition no_pygame_app : t :=
  exec (step false
          (result_received (generation_complete "/tmp/tmpabc.wav" true) mixer_ok))
       init.

(** The controller after the first VoiceReady. *)
Definition voice_ready_app : t :=
  exec (step true (result_received (model_loaded "Female (Amy)") mixer_ok)) init.

(** The controller after Generate & Play and Save were both clicked. *)
Definition busy_app : t :=
  exec (run_events true
          [gen_play_clicked "hello"; save_clicked "hello" "/out.wav"])
       voice_ready_app.

(** A string that does not start in the middle of a character, as every
    encoded Python string. *)
Definition starts_on_char (s : string) : bool :=
  match s with
  | EmptyString => true
  | String c _ => negb (is_continuation c)
  end.

(** The two bytes of a small e with acute accent. *)
Definition e_acute : string :=
  String (Ascii.ascii_of_nat 195) (String (Ascii.ascii_of_nat 169) "").

(** An error message that names a file outside ASCII. *)
Definition accented_message : string :=
  "Gen Error: cannot write /home/ren" +:+ e_acute +:+ "e/caf" +:+ e_acute +:+
  "/r" +:+ e_acute +:+ "sum" +:+ e_acute +:+ ".wav".

(** Commands the worker can execute as they stand: a Generate has some
    text and a destination that is absent or not empty. *)
Definition well_formed_cmd (c : Command) : bool :=
  match c with
  | generate_cmd text file_path =>
      negb (String.eqb text "") &&
      match file_path with
      | None => true
      | Some p => negb (String.eqb p "")
      end
  | _ => true
  end.

(** An AudioReady without a path, on which the polling loop returns. *)
Definition has_empty_path (r : Result) : bool :=
  match r with
  | generation_complete p _ => String.eqb p ""
  | _ => false
  end.

(** Events whose handler may change the playback state. *)
Definition touches_playback (ev : Event) : bool :=
  match ev with
  | gen_play_clicked _ | pause_clicked | resume_clicked | stop_clicked => true
  | result_received (generation_complete _ true) _ => true
  | _ => false
  end.

(** What the log widget gains from a list of Log results. *)
Fixpoint log_lines (q : list Result) : string :=
  match q with
  | [] => ""
  | log_result msg :: rest => ("> " +:+ msg +:+ newline) +:+ log_lines rest
  | _ :: rest => log_lines rest
  end.

(** While playing, pygame is present and the file being played was
    loaded into the mixer; without pygame the mixer is never called; the
    skip button follows the Stop button. *)
Definition artifact_inv (HAS_PYGAME : bool) (a : t) : Prop :=
  (is_playing a = true ->
   HAS_PYGAME = true /\
   exists p, audio_file a = Some p /\ p <> "" /\ music_load p ∈ mixer a) /\
  (HAS_PYGAME = false -> mixer a = [] /\ audio_file a = None) /\
  btn_ff a = btn_stop a.

End AppVocabulary.

(** ** For the two threads together *)

Module SystemVocabulary.
Import System.

(** [mkstemp], when it succeeds, returns a path that is not empty. *)
Definition mkstemp_ok (env : TTSWorker.Env) : bool :=
  match TTSWorker.mkstemp_outcome env with
  | inr p => negb (String.eqb p "")
  | inl _ => true
  end.

(** Steps whose world is sound in the sense above. *)
Definition sound_step (st : Step) : bool :=
  match st with
  | work env => mkstemp_ok env
  | _ => true
  end.

(** Steps other than closing the window. *)
Definition keeps_window (st : Step) : bool :=
  match st with
  | gui OfflineTTSApp.window_closed => false
  | _ => true
  end.

(** A session: Amy is loaded, a sentence is played, then saved. *)
Definition session : list Step :=
  [gui (OfflineTTSApp.voice_selected "Female (Amy)");
   work WorkerVocabulary.env_installed;
   poll [];
   gui (OfflineTTSApp.gen_play_clicked "hello");
   gui (OfflineTTSApp.save_clicked "hello" "/out.wav");
   work WorkerVocabulary.env_installed;
   work WorkerVocabulary.env_write_fails].

End SystemVocabulary.

(** * Properties of the worker *)

Module WorkerSpec.
Import TTSWorker WorkerVocabulary.

Lemma for_each_reporthook hooks w :
  for_each hooks (_reporthook (Some log)) w =
  (tt, {| tts := tts w; current_voice_name := current_voice_name w;
          running := running w;
          result_queue := result_queue w ++ progress_logs hooks;
          calls := calls w |}).
Proof.
  revert w. induction hooks as [|[[blocknum blocksize] totalsize] hooks IH]; intros w.
  - simpl. rewrite app_nil_r. by destruct w.
  - cbn [for_each bind _reporthook progress_logs flat_map].
    destruct (0 <? totalsize); simpl; rewrite IH; simpl.
    + by rewrite <- app_assoc.
    + done.
Qed.

Lemma download_file_eq env u f w :
  download_file env u f (Some log) w =
  (urlretrieve_ok env,
   {| tts := tts w; current_voice_name := current_voice_name w;
      running := running w;
      result_queue := result_queue w ++ progress_logs (reporthook_calls env);
      calls := calls w ++ [urlretrieve u f] |}).
Proof.
  unfold download_file. cbn [bind call modify]. by rewrite for_each_reporthook.
Qed.

Arguments put_result r w /.
Arguments call c w /.
Arguments set_tts e w /.
Arguments set_current_voice_name n w /.
Arguments set_running b w /.
Arguments log msg w /.
Arguments extract_file env filename w /.
Arguments download_file : simpl never.
Arguments MODELS : simpl never.
Arguments os_path_join : simpl never.

(** Split on a test the symbolic run is stuck on. *)
Ltac split_test :=
  match goal with
  | |- context [match ?x with _ => _ end] =>
      lazymatch x with
      | context [match _ with _ => _ end] => fail
      | _ => destruct x eqn:?
      end
  end.

(** Run a method symbolically: push the state through the binds, and
    split on every test met on the way. *)
Ltac run_method :=
  unfold TTSWorker.load_model, TTSWorker.generate_speech, TTSWorker.handle,
         load_engine, emitted, called;
  repeat first
    [ rewrite download_file_eq
    | progress simpl
    | split_test ].

Lemma progress_logs_are_logs hooks r :
  r ∈ progress_logs hooks -> is_log r = true.
Proof.
  unfold progress_logs. rewrite list_elem_of_In, in_flat_map.
  intros ([[blocknum blocksize] totalsize] & _ & Hr).
  destruct (0 <? totalsize); simpl in Hr; [|done].
  by destruct Hr as [<-|[]].
Qed.

(** Reduce [drop (length q) (q ++ ...)], the shape of [emitted] and
    [called] once a method has been run. *)
Ltac queue_norm :=
  rewrite <- ?app_assoc; rewrite ?drop_app_length, ?drop_all; simpl.

(** Membership of a result in what a run emitted. *)
Ltac not_emitted H :=
  repeat (rewrite elem_of_app in H || rewrite elem_of_cons in H);
  rewrite ?elem_of_nil in H;
  repeat match type of H with
         | _ \/ _ => destruct H as [H|H]
         end;
  try discriminate; try contradiction;
  try (apply progress_logs_are_logs in H; discriminate).

Section Worker.

Variable HAS_TTS : bool.

Local Abbreviation load_model := (TTSWorker.load_model HAS_TTS).
Local Abbreviation handle := (TTSWorker.handle HAS_TTS).
Local Abbreviation reachable := (TTSWorker.reachable HAS_TTS).

Lemma load_model_inv env name w :
  engine_inv HAS_TTS w -> engine_inv HAS_TTS (exec (load_model env name) w).
Proof.
  intros Hinv. run_method; try exact Hinv.
  all: intros _; split; [by destruct HAS_TTS | eauto].
Qed.

Lemma generate_speech_engine env text file_path w :
  tts (exec (generate_speech env text file_path) w) = tts w /\
  current_voice_name (exec (generate_speech env text file_path) w) =
    current_voice_name w.
Proof. run_method; done. Qed.

Lemma handle_inv env cmd w :
  engine_inv HAS_TTS w -> engine_inv HAS_TTS (exec (handle env cmd) w).
Proof.
  intros Hinv. destruct cmd as [voice_name|text file_path|].
  - pose proof (load_model_inv env voice_name w Hinv) as H.
    unfold TTSWorker.handle. simpl in *.
    by destruct (TTSWorker.load_model HAS_TTS env voice_name w).
  - destruct (generate_speech_engine env text file_path w) as [Ht Hn].
    unfold TTSWorker.handle. simpl in *.
    destruct (TTSWorker.generate_speech env text file_path w) as [u w'].
    unfold engine_inv in *. simpl in *. by rewrite Ht, Hn.
  - exact Hinv.
Qed.

Lemma reachable_inv w : reachable w -> engine_inv HAS_TTS w.
Proof.
  induction 1 as [|w env cmd _ IH _|w _ IH].
  - intros [e He]. discriminate He.
  - by apply handle_inv.
  - exact IH.
Qed.

(** The loop of [run] only passes through reachable states. *)
Lemma run_loop_reachable cmds w :
  reachable w -> running w = true -> reachable (exec (run_loop HAS_TTS cmds) w).
Proof.
  revert w. induction cmds as [|[cmd env] cmds IH]; intros w Hw Hrun; [done|].
  pose proof (reachable_handle HAS_TTS w env cmd Hw Hrun) as Hstep.
  simpl in *. destruct (TTSWorker.handle HAS_TTS env cmd w) as [continue w'] eqn:E.
  simpl in *. destruct continue; [|done].
  apply IH; [done|].
  destruct cmd; simpl in E.
  - destruct (TTSWorker.load_model HAS_TTS env voice_name w) as [u w1] eqn:E1.
    injection E as <-.
    assert (w1 = exec (load_model env voice_name) w) as -> by (simpl; by rewrite E1).
    clear E1 Hstep. revert Hrun. run_method; done.
  - destruct (TTSWorker.generate_speech env text file_path w) as [u w1] eqn:E1.
    injection E as <-.
    assert (w1 = exec (generate_speech env text file_path) w) as ->
      by (simpl; by rewrite E1).
    clear E1 Hstep. revert Hrun. run_method; done.
  - discriminate E.
Qed.

Lemma run_reachable cmds : reachable (exec (run HAS_TTS cmds) init).
Proof.
  pose proof (run_loop_reachable cmds _ (reachable_start HAS_TTS) eq_refl) as H.
  exact H.
Qed.

(** What a load that reports [model_loaded] leaves behind. *)
Lemma load_model_loaded env name w :
  model_loaded name ∈ emitted (load_model env name) w ->
  HAS_TTS = true /\
  is_Some (tts (exec (load_model env name) w)) /\
  current_voice_name (exec (load_model env name) w) = Some name.
Proof.
  run_method; queue_norm; intros H; not_emitted H.
  all: try (split; [by destruct HAS_TTS | split; [eauto | done]]).
  apply andb_true_iff in Heqb0 as [Ht Hn].
  apply bool_decide_eq_true in Ht, Hn.
  split; [by destruct HAS_TTS | done].
Qed.

(** One [load_model] builds at most one engine. *)
Lemma load_model_constructs_once env name w :
  (length (List.filter is_construction (called (load_model env name) w)) <= 1)%nat.
Proof. run_method; queue_norm; lia. Qed.

Lemma progress_logs_not_loaded hooks :
  List.filter is_model_loaded (progress_logs hooks) = [].
Proof.
  unfold progress_logs.
  induction hooks as [|[[blocknum blocksize] totalsize] hooks IH]; [done|].
  simpl. rewrite List.filter_app, IH, app_nil_r.
  by destruct (0 <? totalsize).
Qed.

(** A load that reports [model_loaded] reports it once. *)
Lemma load_model_loaded_once env name w :
  model_loaded name ∈ emitted (load_model env name) w ->
  List.filter is_model_loaded (emitted (load_model env name) w) =
    [model_loaded name].
Proof.
  run_method; queue_norm; intros H; not_emitted H.
  all: by rewrite ?List.filter_app, ?progress_logs_not_loaded.
Qed.

(** The fast path of [load_model]. *)
Lemma load_model_fast_path env name w :
  HAS_TTS = true -> is_Some (tts w) -> current_voice_name w = Some name ->
  load_model env name w =
  (tt, {| tts := tts w; current_voice_name := current_voice_name w;
          running := running w;
          result_queue := result_queue w ++
            [log_result ("Voice '" +:+ name +:+ "' already loaded.");
             model_loaded name];
          calls := calls w |}).
Proof.
  intros -> Ht Hn. unfold TTSWorker.load_model. simpl.
  rewrite (bool_decide_eq_true_2 _ Ht), (bool_decide_eq_true_2 _ Hn). simpl.
  by rewrite <- app_assoc.
Qed.

(** With the engine installed, [generate_speech] starts by calling it. *)
Lemma generate_speech_uses_engine env text file_path w engine :
  tts w = Some engine ->
  head (called (generate_speech env text file_path) w) =
    Some (tts_generate engine text).
Proof. intros Ht. run_method; queue_norm; congruence. Qed.

(** The outcome of unpacking is never looked at: two worlds that differ
    in nothing else make [load_model] do the same. *)
Lemma extract_outcome_ignored env name w b :
  load_model env name w =
  load_model
    {| path_exists := path_exists env;
       reporthook_calls := reporthook_calls env;
       urlretrieve_ok := urlretrieve_ok env;
       extractall_ok := b;
       OfflineTts_raises := OfflineTts_raises env;
       generate_outcome := generate_outcome env;
       elapsed := elapsed env;
       mkstemp_outcome := mkstemp_outcome env;
       wavfile_write_raises := wavfile_write_raises env |} name w.
Proof. reflexivity. Qed.

(** A failed download is reported and ends the command. *)
Lemma load_model_download_failed env name model_info w :
  HAS_TTS = true -> tts w = None ->
  MODELS !! name = Some model_info ->
  path_exists env (os_path_join (dir model_info) (onnx model_info)) = false ->
  path_exists env (archive model_info) = false ->
  urlretrieve_ok env = false ->
  emitted (load_model env name) w =
    log_result ("Downloading " +:+ name +:+ "...") ::
    progress_logs (reporthook_calls env) ++ [log_result "Download failed."] /\
  tts (exec (load_model env name) w) = None.
Proof.
  intros -> Ht Hm Ho Ha Hd. unfold TTSWorker.load_model, emitted. simpl.
  rewrite Ht, Hm. simpl. rewrite Ho, Ha. simpl.
  rewrite download_file_eq, Hd. simpl. queue_norm. by rewrite Ht.
Qed.

(** C3: a LoadVoice for the voice of the installed engine emits one Log
    followed by VoiceReady for that voice and returns, calling neither the
    download, nor the unpacking, nor the engine constructor, and leaving
    the engine in place.  Hence, when the first of two consecutive
    LoadVoice commands for a voice reports VoiceReady, the two together
    report VoiceReady twice and build at most one engine. *)
Theorem load_model_same_voice env env' name w :
  reachable w ->
  (is_Some (tts w) -> current_voice_name w = Some name ->
   emitted (load_model env name) w =
     [log_result ("Voice '" +:+ name +:+ "' already loaded.");
      model_loaded name] /\
   called (load_model env name) w = [] /\
   tts (exec (load_model env name) w) = tts w /\
   current_voice_name (exec (load_model env name) w) = Some name) /\
  (model_loaded name ∈ emitted (load_model env name) w ->
   let w1 := exec (load_model env name) w in
   emitted (load_model env' name) w1 =
     [log_result ("Voice '" +:+ name +:+ "' already loaded.");
      model_loaded name] /\
   List.filter is_model_loaded
     (emitted (load_model env name) w ++ emitted (load_model env' name) w1) =
     [model_loaded name; model_loaded name] /\
   (length (List.filter is_construction
      (called (load_model env name) w ++ called (load_model env' name) w1))
    <= 1)%nat).
Proof.
  intros Hreach. split.
  - intros Ht Hn.
    destruct (reachable_inv w Hreach Ht) as [Hlib _].
    unfold emitted, called, exec.
    rewrite (load_model_fast_path env name w Hlib Ht Hn). simpl.
    queue_norm. done.
  - intros Hfirst w1.
    destruct (load_model_loaded env name w Hfirst) as (Hlib & Ht & Hn).
    pose proof (load_model_loaded_once env name w Hfirst) as Honce.
    pose proof (load_model_constructs_once env name w) as Hcons.
    fold w1 in Ht, Hn.
    assert (emitted (load_model env' name) w1 =
            [log_result ("Voice '" +:+ name +:+ "' already loaded.");
             model_loaded name] /\
            called (load_model env' name) w1 = []) as [He Hc].
    { unfold emitted, called, exec.
      rewrite (load_model_fast_path env' name w1 Hlib Ht Hn). simpl.
      queue_norm. done. }
    rewrite He, Hc, app_nil_r, List.filter_app, Honce. done.
Qed.

(** C4: a Generate processed while no engine is installed emits exactly
    one Log and returns: no AudioReady, no call to any collaborator. *)
Theorem generate_speech_not_loaded env text file_path w :
  tts w = None ->
  emitted (generate_speech env text file_path) w =
    [log_result "Model not loaded."] /\
  called (generate_speech env text file_path) w = [] /\
  tts (exec (generate_speech env text file_path) w) = None.
Proof.
  intros Ht. unfold TTSWorker.generate_speech, emitted, called. simpl.
  rewrite Ht. simpl. queue_norm. done.
Qed.

(** C6: a LoadVoice whose name is not a key of the catalog emits a single
    Log that starts with an error indicator and returns; no VoiceReady is
    emitted, nothing is called and the worker's engine is left as it was. *)
Theorem load_model_unknown_voice env name w :
  reachable w -> MODELS !! name = None ->
  exists msg,
    emitted (load_model env name) w = [log_result msg] /\
    String.prefix "Error" msg = true /\
    called (load_model env name) w = [] /\
    tts (exec (load_model env name) w) = tts w /\
    current_voice_name (exec (load_model env name) w) = current_voice_name w.
Proof.
  intros Hreach Hm.
  pose proof (reachable_inv w Hreach) as Hinv.
  unfold TTSWorker.load_model, emitted, called. simpl.
  destruct HAS_TTS; simpl.
  - destruct (bool_decide (is_Some (tts w)) &&
              bool_decide (current_voice_name w = Some name)) eqn:Hfast.
    + apply andb_true_iff in Hfast as [Ht Hn].
      apply bool_decide_eq_true in Ht, Hn.
      destruct (Hinv Ht) as (_ & n & Hn' & Hsome).
      rewrite Hn in Hn'. injection Hn' as <-.
      rewrite Hm in Hsome. by destruct Hsome.
    + rewrite Hm. simpl. queue_norm. by eexists.
  - queue_norm. by eexists.
Qed.

(** C7: for every Generate command the controller can enqueue (some
    text, a destination that is absent or not empty) whose synthesis and
    encoding succeed: if the destination is absent, one temporary file is
    allocated by [tempfile.mkstemp] for this command and the AudioReady
    carries that file's path with isTemporary = true (so the path is
    fresh, not a file that existed before, as [mkstemp] guarantees); if a
    destination is given, the AudioReady carries exactly that path with
    isTemporary = false and no temporary file is allocated. *)
Theorem generate_speech_destination env text file_path w engine audio :
  AppVocabulary.well_formed_cmd (generate_cmd text file_path) = true ->
  tts w = Some engine ->
  generate_outcome env = inr audio ->
  wavfile_write_raises env = None ->
  match file_path with
  | None =>
      forall p, mkstemp_outcome env = inr p ->
      emitted (generate_speech env text file_path) w =
        [log_result "Generating...";
         log_result ("Done (" +:+ elapsed env +:+ "s)");
         generation_complete p true] /\
      called (generate_speech env text file_path) w =
        [tts_generate engine text; mkstemp ".wav";
         wavfile_write p (sample_rate audio) (samples audio)] /\
      (mkstemp_fresh env -> path_exists env p = false)
  | Some p =>
      emitted (generate_speech env text file_path) w =
        [log_result "Generating...";
         log_result ("Done (" +:+ elapsed env +:+ "s)");
         generation_complete p false] /\
      called (generate_speech env text file_path) w =
        [tts_generate engine text;
         wavfile_write p (sample_rate audio) (samples audio)]
  end.
Proof.
  intros Hcmd Ht Hg Hw. destruct file_path as [p|].
  - simpl in Hcmd. apply andb_true_iff in Hcmd as [_ Hp].
    apply negb_true_iff in Hp.
    unfold TTSWorker.generate_speech, emitted, called. simpl.
    rewrite Ht. simpl. rewrite Hg. simpl. rewrite Hp. simpl.
    rewrite Hw. simpl. queue_norm. done.
  - intros p Hp.
    unfold TTSWorker.generate_speech, emitted, called. simpl.
    rewrite Ht. simpl. rewrite Hg. simpl. rewrite Hp. simpl.
    rewrite Hw. simpl. queue_norm.
    repeat split. intros Hfresh. by apply Hfresh.
Qed.

(** C10: when the engine constructor raises, [load_model] leaves the
    installed engine and the current voice name as they were, so that a
    following Generate calls the engine that was installed before. *)
Theorem load_model_failure_atomic env name w e :
  OfflineTts_raises env = Some e ->
  let w' := exec (load_model env name) w in
  tts w' = tts w /\
  current_voice_name w' = current_voice_name w /\
  forall genv text file_path engine,
    tts w = Some engine ->
    head (called (generate_speech genv text file_path) w') =
      Some (tts_generate engine text).
Proof.
  intros Hraise w'.
  assert (tts w' = tts w /\ current_voice_name w' = current_voice_name w)
    as [Ht Hn].
  { subst w'. run_method; try done; congruence. }
  repeat split; [done|done|].
  intros genv text file_path engine He.
  apply generate_speech_uses_engine. by rewrite Ht.
Qed.

End Worker.

(** The greeting is the only thing a started worker has done. *)
Lemma started_reachable : reachable true started.
Proof. apply reachable_start. Qed.

Lemma amy_loaded_reachable : reachable true amy_loaded.
Proof. apply reachable_handle; [apply reachable_start | reflexivity]. Qed.

Lemma load_model_same_voice_witness :
  (emitted (load_model true env_offline "Female (Amy)") amy_loaded =
     [log_result "Voice 'Female (Amy)' already loaded.";
      model_loaded "Female (Amy)"] /\
   called (load_model true env_offline "Female (Amy)") amy_loaded = []) /\
  (List.filter is_model_loaded
     (emitted (load_model true env_installed "Female (Amy)") started ++
      emitted (load_model true env_offline "Female (Amy)")
        (exec (load_model true env_installed "Female (Amy)") started)) =
     [model_loaded "Female (Amy)"; model_loaded "Female (Amy)"] /\
   (length (List.filter is_construction
      (called (load_model true env_installed "Female (Amy)") started ++
       called (load_model true env_offline "Female (Amy)")
         (exec (load_model true env_installed "Female (Amy)") started)))
    <= 1)%nat).
Proof.
  split.
  - destruct (load_model_same_voice true env_offline env_offline
                "Female (Amy)" amy_loaded amy_loaded_reachable) as [Hfast _].
    destruct Hfast as (He & Hc & _); [by eexists | reflexivity |].
    split; [exact He | exact Hc].
  - destruct (load_model_same_voice true env_installed env_offline
                "Female (Amy)" started started_reachable) as [_ Htwice].
    destruct Htwice as (_ & Hloaded & Hbuilt).
    + vm_compute. do 2 apply list_elem_of_further. apply list_elem_of_here.
    + split; [exact Hloaded | exact Hbuilt].
Defined.

Lemma generate_speech_not_loaded_witness :
  emitted (generate_speech env_installed "hello" None) started =
    [log_result "Model not loaded."] /\
  called (generate_speech env_installed "hello" None) started = [] /\
  tts (exec (generate_speech env_installed "hello" None) started) = None.
Proof.
  apply (generate_speech_not_loaded env_installed "hello" None started).
  reflexivity.
Defined.

Lemma load_model_unknown_voice_witness :
  MODELS !! "Nonexistent" = None /\
  exists msg,
    emitted (load_model true env_installed "Nonexistent") started =
      [log_result msg] /\
    String.prefix "Error" msg = true /\
    called (load_model true env_installed "Nonexistent") started = [] /\
    tts (exec (load_model true env_installed "Nonexistent") started) =
      tts started /\
    current_voice_name (exec (load_model true env_installed "Nonexistent") started) =
      current_voice_name started.
Proof.
  split; [reflexivity|].
  apply (load_model_unknown_voice true env_installed "Nonexistent" started).
  - exact started_reachable.
  - reflexivity.
Defined.

Lemma generate_speech_destination_witness :
  emitted (generate_speech env_installed "hello" None) amy_loaded =
    [log_result "Generating..."; log_result "Done (0.10s)";
     generation_complete "/tmp/tmpabc.wav" true] /\
  called (generate_speech env_installed "hello" None) amy_loaded =
    [tts_generate amy_engine "hello"; mkstemp ".wav";
     wavfile_write "/tmp/tmpabc.wav" 16000 []] /\
  emitted (generate_speech env_installed "hello" (Some "/out.wav")) amy_loaded =
    [log_result "Generating..."; log_result "Done (0.10s)";
     generation_complete "/out.wav" false].
Proof.
  pose proof (generate_speech_destination env_installed "hello" None amy_loaded
                amy_engine {| samples := []; sample_rate := 16000 |}
                eq_refl eq_refl eq_refl eq_refl) as Htemp.
  destruct (Htemp "/tmp/tmpabc.wav" eq_refl) as (He & Hc & _).
  pose proof (generate_speech_destination env_installed "hello" (Some "/out.wav")
                amy_loaded amy_engine {| samples := []; sample_rate := 16000 |}
                eq_refl eq_refl eq_refl eq_refl) as [Hkeep _].
  split; [exact He|]. split; [exact Hc | exact Hkeep].
Defined.

(** The worker itself takes an empty destination for an absent one and
    reports a temporary file; the controller never enqueues such a
    command ([on_save] tests the chosen file name). *)
Lemma generate_speech_empty_destination :
  tts amy_loaded = Some amy_engine /\
  emitted (generate_speech env_installed "hello" (Some "")) amy_loaded =
    [log_result "Generating..."; log_result "Done (0.10s)";
     generation_complete "/tmp/tmpabc.wav" true].
Proof. split; reflexivity. Qed.

(** C5 fails on the code for the unpacking step: [load_model] does not
    look at what [extract_file] returns.  With the archive on disk, the
    model missing and the unpacking raising, no Log reports the failure,
    the engine is built all the same and VoiceReady is emitted. *)
Theorem load_model_unpack_failure_unreported :
  extractall_ok env_unpack_fails = false /\
  emitted (load_model true env_unpack_fails "Female (Amy)") started =
    [log_result "Downloading Female (Amy)...";
     log_result "Extracting...";
     log_result "Loading Engine...";
     log_result "Loaded: Female (Amy)";
     model_loaded "Female (Amy)"] /\
  called (load_model true env_unpack_fails "Female (Amy)") started =
    [tar_extractall "vits-piper-en_US-amy-low.tar.bz2";
     OfflineTts_new (config amy_engine)].
Proof. repeat split; reflexivity. Qed.

Lemma load_model_failure_atomic_witness :
  tts (exec (load_model true env_engine_fails "Male (Ryan)") amy_loaded) =
    Some amy_engine /\
  current_voice_name (exec (load_model true env_engine_fails "Male (Ryan)") amy_loaded) =
    Some "Female (Amy)" /\
  head (called (generate_speech env_installed "hello" None)
          (exec (load_model true env_engine_fails "Male (Ryan)") amy_loaded)) =
    Some (tts_generate amy_engine "hello").
Proof.
  destruct (load_model_failure_atomic true env_engine_fails "Male (Ryan)"
              amy_loaded "bad model" eq_refl) as (Ht & Hn & Hgen).
  split; [exact Ht|]. split; [exact Hn|].
  apply Hgen. reflexivity.
Defined.

End WorkerSpec.

(** * Properties of the controller *)

Module AppSpec.
Import OfflineTTSApp AppVocabulary.

Arguments set_audio_file p a /.
Arguments set_is_playing b a /.
Arguments set_is_paused b a /.
Arguments cmd_queue_put c a /.
Arguments btn_gen_play_config state a /.
Arguments btn_pause_config state a /.
Arguments btn_resume_config state a /.
Arguments btn_stop_config state a /.
Arguments btn_ff_config state a /.
Arguments btn_save_config state a /.
Arguments lbl_status_config text a /.
Arguments voice_combo_set v a /.
Arguments log_text_insert s a /.
Arguments mixer_call c a /.
Arguments show d a /.
Arguments last_chars : simpl never.

(** Run a handler symbolically, splitting on every test met on the way. *)
Ltac run_gui :=
  unfold step, process_result, on_gen_play, on_save, on_pause, on_resume,
         on_stop, on_ff, on_closing, load_and_play_audio, change_voice,
         update_media_buttons, log;
  repeat first [ progress simpl | WorkerSpec.split_test ].

Section App.

Variable HAS_PYGAME : bool.

Local Abbreviation step := (OfflineTTSApp.step HAS_PYGAME).
Local Abbreviation process_result := (OfflineTTSApp.process_result HAS_PYGAME).
Local Abbreviation run_events := (OfflineTTSApp.run_events HAS_PYGAME).
Local Abbreviation reachable := (OfflineTTSApp.reachable HAS_PYGAME).

Lemma step_buttons_inv ev a : buttons_inv a -> buttons_inv (exec (step ev) a).
Proof.
  unfold buttons_inv.
  destruct ev as [voice_name|text|text f| | | | | |res out]; try destruct res.
  all: run_gui; intros (Hp & Hpause & Hresume & Hstop).
  all: try (repeat split; (done || congruence || (intros; congruence))).
  all: destruct HAS_PYGAME; simpl in *; congruence.
Qed.

Lemma reachable_buttons_inv a : reachable a -> buttons_inv a.
Proof.
  induction 1 as [|a ev _ IH|a _ IH].
  - by repeat split.
  - by apply step_buttons_inv.
  - exact IH.
Qed.

(** Every run of events ends in a reachable state. *)
Lemma run_events_reachable evs a :
  reachable a -> reachable (exec (run_events evs) a).
Proof.
  unfold OfflineTTSApp.run_events.
  revert a. induction evs as [|ev evs IH]; intros a Ha; [done|].
  pose proof (reachable_step HAS_PYGAME a ev Ha) as Hstep.
  simpl in *. destruct (OfflineTTSApp.step HAS_PYGAME ev a) as [u a'].
  by apply IH.
Qed.

Lemma step_keeps_generate_disabled ev a :
  non_terminal ev = true -> btn_gen_play a = DISABLED ->
  btn_gen_play (exec (step ev) a) = DISABLED.
Proof.
  destruct ev as [voice_name|text|text f| | | | | |res out]; try destruct res.
  all: intros Hev; try discriminate Hev; clear Hev.
  all: run_gui; done.
Qed.

(** C1, amended: a Log result never changes the generate button; the
    controller appends the message to the log and shows its last 30
    characters as the status.  The button is re-enabled only by a
    VoiceReady or an AudioReady result: no other event enables a disabled
    button, so after a command that fails with only Log results it stays
    disabled, through every Log result and every user action, until such
    a result arrives. *)
Theorem log_result_keeps_generate_button a :
  (forall out msg,
     let a' := exec (process_result out (log_result msg)) a in
     btn_gen_play a' = btn_gen_play a /\
     log_text a' = log_text a +:+ ("> " +:+ msg +:+ newline) /\
     lbl_status a' = last_chars 30 msg /\
     cmd_queue a' = cmd_queue a) /\
  (forall out voice,
     btn_gen_play (exec (process_result out (model_loaded voice)) a) = NORMAL) /\
  (forall out path is_temp,
     btn_gen_play (exec (process_result out (generation_complete path is_temp)) a)
       = NORMAL) /\
  (forall ev,
     btn_gen_play a = DISABLED ->
     btn_gen_play (exec (step ev) a) = NORMAL ->
     exists res out,
       ev = result_received res out /\ is_log res = false) /\
  (forall evs,
     btn_gen_play a = DISABLED ->
     Forall (fun ev => non_terminal ev = true) evs ->
     btn_gen_play (exec (run_events evs) a) = DISABLED).
Proof.
  split; [|split; [|split; [|split]]].
  - intros out msg. run_gui. done.
  - intros out voice. run_gui. done.
  - intros out path is_temp. run_gui; done.
  - intros ev Hdis Hen.
    destruct (non_terminal ev) eqn:Hev.
    + rewrite (step_keeps_generate_disabled ev a Hev Hdis) in Hen.
      discriminate Hen.
    + destruct ev as [voice_name|text|text f| | | | | |res out];
        try discriminate Hev.
      exists res, out. split; [done|]. by destruct res.
  - intros evs Hdis Hall. unfold OfflineTTSApp.run_events. revert a Hdis.
    induction Hall as [|ev evs Hev _ IH]; intros a Hdis; [done|].
    pose proof (step_keeps_generate_disabled ev a Hev Hdis) as Hstep.
    simpl in *. destruct (OfflineTTSApp.step HAS_PYGAME ev a) as [u a'].
    by apply IH.
Qed.

(** C2: in every reachable state of the controller the transport buttons
    agree with the playback state.  Stopped: Pause and Resume disabled.
    Playing: Pause and Stop enabled, Resume disabled.  Paused: Resume and
    Stop enabled, Pause disabled.  So a Pause click can only come while
    Playing, a Resume click while Paused, a Stop click while Playing or
    Paused. *)
Theorem transport_buttons_follow_state a :
  reachable a ->
  match playback_state a with
  | Stopped => btn_pause a = DISABLED /\ btn_resume a = DISABLED
  | Playing =>
      btn_pause a = NORMAL /\ btn_stop a = NORMAL /\ btn_resume a = DISABLED
  | Paused =>
      btn_resume a = NORMAL /\ btn_stop a = NORMAL /\ btn_pause a = DISABLED
  end /\
  (btn_pause a = NORMAL -> playback_state a = Playing) /\
  (btn_resume a = NORMAL -> playback_state a = Paused) /\
  (btn_stop a = NORMAL ->
   playback_state a = Playing \/ playback_state a = Paused).
Proof.
  intros Hreach.
  destruct (reachable_buttons_inv a Hreach) as (Hp & Hpause & Hresume & Hstop).
  unfold playback_state.
  destruct (is_playing a), (is_paused a); simpl in *.
  all: rewrite Hpause, Hresume, Hstop.
  all: repeat split; try done; try (intros; discriminate); auto.
  all: by discriminate Hp.
Qed.

(** C8, amended: for a non-empty path, a temporary AudioReady makes the
    controller load the file into the mixer, start it and move to Playing
    when pygame is present and the mixer accepts the file; when pygame is
    missing or the mixer raises, the playback state stays as it was.  A
    non-temporary AudioReady shows the "Saved" notice and leaves the
    playback state and the mixer untouched. *)
Theorem audio_ready_transitions out path a :
  path <> "" ->
  (HAS_PYGAME = true -> out = mixer_ok ->
   let a' := exec (process_result out (generation_complete path true)) a in
   playback_state a' = Playing /\
   audio_file a' = Some path /\
   mixer a' = mixer a ++ [music_load path; music_play] /\
   btn_pause a' = NORMAL /\ btn_stop a' = NORMAL /\ btn_resume a' = DISABLED) /\
  (HAS_PYGAME = false \/ out <> mixer_ok ->
   let a' := exec (process_result out (generation_complete path true)) a in
   playback_state a' = playback_state a /\
   audio_file a' = audio_file a) /\
  (let a' := exec (process_result out (generation_complete path false)) a in
   playback_state a' = playback_state a /\
   audio_file a' = audio_file a /\
   mixer a' = mixer a /\
   dialogs a' = dialogs a ++ [showinfo "Saved" ("File saved: " +:+ path)]).
Proof.
  intros Hpath%String.eqb_neq. split; [|split].
  - intros -> ->. unfold OfflineTTSApp.process_result. simpl.
    rewrite Hpath. simpl. by rewrite <- app_assoc.
  - intros Hfail.
    unfold OfflineTTSApp.process_result, load_and_play_audio. simpl.
    rewrite Hpath. simpl.
    destruct Hfail as [-> | Hout]; [done|].
    destruct HAS_PYGAME, out; simpl; done.
  - unfold OfflineTTSApp.process_result. simpl. rewrite Hpath. done.
Qed.

(** C9, amended: selecting a voice and clicking Generate & Play (with
    some text) disable the generate button as they enqueue their command.
    From then on it stays disabled through every user action and every
    Log result; the next VoiceReady or AudioReady result re-enables it,
    whichever command that result answers. *)
Theorem generate_disabled_until_result a :
  (forall voice_name,
     let a' := exec (change_voice voice_name) a in
     btn_gen_play a' = DISABLED /\
     cmd_queue a' = cmd_queue a ++ [load_model_cmd voice_name]) /\
  (forall text, text <> "" ->
     let a' := exec (on_gen_play HAS_PYGAME text) a in
     btn_gen_play a' = DISABLED /\
     cmd_queue a' = cmd_queue a ++ [generate_cmd text None]) /\
  (forall evs,
     btn_gen_play a = DISABLED ->
     Forall (fun ev => non_terminal ev = true) evs ->
     btn_gen_play (exec (run_events evs) a) = DISABLED) /\
  (forall out voice,
     btn_gen_play (exec (step (result_received (model_loaded voice) out)) a)
       = NORMAL) /\
  (forall out path is_temp,
     btn_gen_play
       (exec (step (result_received (generation_complete path is_temp) out)) a)
       = NORMAL).
Proof.
  split; [|split; [|split; [|split]]].
  - intros voice_name. run_gui. done.
  - intros text Hne%String.eqb_neq.
    unfold on_gen_play. rewrite Hne. run_gui; done.
  - intros evs Hdis Hall. unfold OfflineTTSApp.run_events. revert a Hdis.
    induction Hall as [|ev evs Hev _ IH]; intros a Hdis; [done|].
    pose proof (step_keeps_generate_disabled ev a Hev Hdis) as Hstep.
    simpl in *. destruct (OfflineTTSApp.step HAS_PYGAME ev a) as [u a'].
    by apply IH.
  - intros. run_gui; done.
  - intros. run_gui; done.
Qed.

End App.

Lemma playing_app_reachable : reachable true playing_app.
Proof. apply reachable_step, reachable_init. Qed.

Lemma transport_buttons_follow_state_witness :
  playback_state playing_app = Playing /\
  btn_pause playing_app = NORMAL /\
  btn_stop playing_app = NORMAL /\
  btn_resume playing_app = DISABLED.
Proof.
  split; [reflexivity|].
  exact (proj1 (transport_buttons_follow_state true playing_app
                  playing_app_reachable)).
Defined.

Lemma log_result_keeps_generate_button_witness :
  btn_gen_play (exec (change_voice "Male (Ryan)") voice_ready_app) = DISABLED /\
  btn_gen_play
    (exec (run_events true
             [result_received (log_result "Downloading Male (Ryan)...") mixer_ok;
              result_received (log_result "Download failed.") mixer_ok;
              pause_clicked;
              save_clicked "hello" "/out.wav"])
          (exec (change_voice "Male (Ryan)") voice_ready_app)) = DISABLED.
Proof.
  split; [reflexivity|].
  destruct (log_result_keeps_generate_button true
              (exec (change_voice "Male (Ryan)") voice_ready_app))
    as (_ & _ & _ & _ & Hstay).
  apply Hstay; [reflexivity|]. repeat constructor.
Defined.

Lemma audio_ready_transitions_witness :
  playback_state
    (exec (process_result true mixer_ok
             (generation_complete "/tmp/tmpabc.wav" true)) init) = Playing /\
  dialogs
    (exec (process_result true mixer_ok
             (generation_complete "/out.wav" false)) playing_app) =
    [showinfo "Saved" "File saved: /out.wav"] /\
  playback_state
    (exec (process_result true mixer_ok
             (generation_complete "/out.wav" false)) playing_app) = Playing.
Proof.
  split; [|split].
  - destruct (audio_ready_transitions true mixer_ok "/tmp/tmpabc.wav" init)
      as (Hplay & _ & _); [discriminate|].
    destruct (Hplay eq_refl eq_refl) as [Hstate _]. exact Hstate.
  - destruct (audio_ready_transitions true mixer_ok "/out.wav" playing_app)
      as (_ & _ & Hsave); [discriminate|].
    destruct Hsave as (_ & _ & _ & Hdialog). exact Hdialog.
  - destruct (audio_ready_transitions true mixer_ok "/out.wav" playing_app)
      as (_ & _ & Hsave); [discriminate|].
    destruct Hsave as (Hstate & _). exact Hstate.
Defined.

(** C8, as stated, fails: without pygame, or when the mixer rejects the
    file, a temporary AudioReady leaves the controller Stopped. *)
Lemma audio_ready_without_playback :
  playback_state
    (exec (process_result false mixer_ok
             (generation_complete "/tmp/tmpabc.wav" true)) init) = Stopped /\
  dialogs
    (exec (process_result false mixer_ok
             (generation_complete "/tmp/tmpabc.wav" true)) init) =
    [showerror "Error" "Pygame not installed."] /\
  playback_state
    (exec (process_result true (music_load_raises "corrupt file")
             (generation_complete "/tmp/tmpabc.wav" true)) init) = Stopped.
Proof. repeat split; reflexivity. Qed.

Lemma generate_disabled_until_result_witness :
  btn_gen_play (exec (on_gen_play true "hello") playing_app) = DISABLED /\
  btn_gen_play
    (exec (run_events true
             [result_received (log_result "Generating...") mixer_ok;
              stop_clicked;
              save_clicked "hello" "/out.wav";
              result_received (log_result "Gen Error: out of memory") mixer_ok])
          (exec (on_gen_play true "hello") playing_app)) = DISABLED.
Proof.
  destruct (generate_disabled_until_result true playing_app)
    as (_ & Hgen & _).
  destruct (Hgen "hello") as [Hdis _]; [discriminate|].
  split; [exact Hdis|].
  destruct (generate_disabled_until_result true
              (exec (on_gen_play true "hello") playing_app))
    as (_ & _ & Hstay & _).
  apply Hstay; [exact Hdis|].
  repeat constructor.
Defined.

End AppSpec.

(** * The two threads together *)

Module SystemSpec.
Import System.

(** Taking results off the queue keeps the worker reachable. *)
Lemma worker_reachable_drop HAS_TTS n w :
  TTSWorker.reachable HAS_TTS w ->
  TTSWorker.reachable HAS_TTS
    (with_result_queue (drop n (TTSWorker.result_queue w)) w).
Proof.
  revert w. induction n as [|n IH]; intros w Hw.
  - rewrite drop_0. by destruct w.
  - apply TTSWorker.reachable_get in Hw. apply IH in Hw.
    destruct w as [e v r q c]. unfold with_result_queue in *. simpl in *.
    destruct q as [|res q]; simpl in *; [by rewrite drop_nil in Hw | done].
Qed.

(** A poll leaves a suffix of the result queue behind. *)
Lemma process_worker_results_rest HAS_PYGAME outs q a :
  exists n, (OfflineTTSApp.process_worker_results HAS_PYGAME outs q a).1 = drop n q.
Proof.
  revert outs a. induction q as [|res q IH]; intros outs a.
  - by exists 0%nat.
  - simpl.
    destruct (OfflineTTSApp.process_result HAS_PYGAME (hd OfflineTTSApp.mixer_ok outs) res a)
      as [continue a'].
    destruct continue.
    + destruct (IH (tl outs) a') as [n Hn]. exists (S n). exact Hn.
    + by exists 1%nat.
Qed.

(** A poll is a run of controller events. *)
Lemma process_worker_results_reachable HAS_PYGAME outs q a :
  OfflineTTSApp.reachable HAS_PYGAME a ->
  OfflineTTSApp.reachable HAS_PYGAME
    (OfflineTTSApp.process_worker_results HAS_PYGAME outs q a).2.
Proof.
  revert outs a. induction q as [|res q IH]; intros outs a Ha; [done|].
  pose proof (OfflineTTSApp.reachable_step HAS_PYGAME a
                (OfflineTTSApp.result_received res (hd OfflineTTSApp.mixer_ok outs)) Ha)
    as Hstep.
  simpl in *.
  destruct (OfflineTTSApp.process_result HAS_PYGAME (hd OfflineTTSApp.mixer_ok outs) res a)
    as [continue a'].
  destruct continue; [by apply IH | done].
Qed.

(** In every state of the system both threads are in a reachable state
    of their own, so what is proved of either holds in the system. *)
Lemma system_run_reachable HAS_TTS HAS_PYGAME sts :
  let s := run HAS_TTS HAS_PYGAME sts init in
  OfflineTTSApp.reachable HAS_PYGAME (app s) /\
  TTSWorker.reachable HAS_TTS (worker s).
Proof.
  unfold run.
  assert (OfflineTTSApp.reachable HAS_PYGAME (app init) /\
          TTSWorker.reachable HAS_TTS (worker init)) as Hinit.
  { split; [apply OfflineTTSApp.reachable_init | apply TTSWorker.reachable_start]. }
  revert Hinit. generalize init as s.
  induction sts as [|st sts IH]; intros s [Ha Hw]; [done|].
  simpl. apply IH. destruct st as [ev|env|outs]; simpl.
  - destruct (is_user_event ev); [|done].
    split; [by apply OfflineTTSApp.reachable_step | done].
  - destruct (TTSWorker.running (worker s)) eqn:Hrun; [|done].
    destruct (head (OfflineTTSApp.cmd_queue (app s))) as [cmd|] eqn:Hcmd; [|done].
    split.
    + by apply (OfflineTTSApp.reachable_get HAS_PYGAME) in Ha.
    + by apply TTSWorker.reachable_handle.
  - destruct (process_worker_results_rest HAS_PYGAME outs
                (TTSWorker.result_queue (worker s)) (app s)) as [n Hn].
    pose proof (process_worker_results_reachable HAS_PYGAME outs
                  (TTSWorker.result_queue (worker s)) (app s) Ha) as Hpoll.
    destruct (OfflineTTSApp.process_worker_results HAS_PYGAME outs
                (TTSWorker.result_queue (worker s)) (app s)) as [rest a'].
    simpl in *. subst rest. split; [done|].
    by apply worker_reachable_drop.
Qed.

(** C1, as stated, fails.  The first voice is selected while the network
    is down: the worker answers with Log results only, the controller
    receives them with the generate button disabled, and once both queues
    are empty the button is still disabled. *)
Lemma download_failure_leaves_generate_disabled :
  let s := run true true
             [gui (OfflineTTSApp.voice_selected "Female (Amy)");
              work WorkerVocabulary.env_offline;
              poll []] init in
  OfflineTTSApp.btn_gen_play (app s) = OfflineTTSApp.DISABLED /\
  OfflineTTSApp.lbl_status (app s) = "Download failed." /\
  OfflineTTSApp.cmd_queue (app s) = [] /\
  TTSWorker.result_queue (worker s) = [].
Proof. repeat split; reflexivity. Qed.

(** C9, as stated, fails twice.  Saving enqueues a Generate and leaves
    the generate button enabled.  And a result re-enables the button
    whatever command it answers: after Generate & Play followed by a voice
    change, the AudioReady of the Generate re-enables the button while the
    LoadVoice is still on the command queue. *)
Lemma generate_enabled_with_command_outstanding :
  (let s := run true true
              [gui (OfflineTTSApp.voice_selected "Female (Amy)");
               work WorkerVocabulary.env_installed;
               poll [];
               gui (OfflineTTSApp.save_clicked "hello" "/out.wav")] init in
   OfflineTTSApp.cmd_queue (app s) = [generate_cmd "hello" (Some "/out.wav")] /\
   OfflineTTSApp.btn_gen_play (app s) = OfflineTTSApp.NORMAL) /\
  (let s := run true true
              [gui (OfflineTTSApp.voice_selected "Female (Amy)");
               work WorkerVocabulary.env_installed;
               poll [];
               gui (OfflineTTSApp.gen_play_clicked "hello");
               gui (OfflineTTSApp.voice_selected "Male (Ryan)");
               work WorkerVocabulary.env_installed;
               poll []] init in
   OfflineTTSApp.cmd_queue (app s) = [load_model_cmd "Male (Ryan)"] /\
   TTSWorker.result_queue (worker s) = [] /\
   OfflineTTSApp.btn_gen_play (app s) = OfflineTTSApp.NORMAL).
Proof. repeat split; reflexivity. Qed.

End SystemSpec.

(** * Further properties of the worker *)

Module WorkerMore.
Import TTSWorker WorkerVocabulary WorkerSpec.

Lemma progress_logs_all_logs hooks :
  Forall (fun r => is_log r = true) (progress_logs hooks).
Proof. apply Forall_forall. intros r. apply progress_logs_are_logs. Qed.

Lemma logs_then_nil allowed : logs_then allowed [].
Proof. exists [], None. repeat split; [constructor | done | done]. Qed.

Lemma logs_then_terminal (allowed : Result -> Prop) r :
  is_log r = false -> allowed r -> logs_then allowed [r].
Proof.
  intros Hlog Hr. exists [], (Some r).
  repeat split; [constructor | by injection H as <- ..].
Qed.

Lemma logs_then_app allowed logs out :
  Forall (fun r => is_log r = true) logs ->
  logs_then allowed out -> logs_then allowed (logs ++ out).
Proof.
  intros Hlogs (logs' & terminal & -> & Hlogs' & Hterm).
  exists (logs ++ logs'), terminal.
  split; [by rewrite app_assoc|]. split; [by apply Forall_app | done].
Qed.

Lemma logs_then_cons allowed msg out :
  logs_then allowed out -> logs_then allowed (log_result msg :: out).
Proof.
  intros H. apply (logs_then_app allowed [log_result msg]); [|done].
  by repeat constructor.
Qed.

(** Recognise the shape "logs, then at most one terminal result". *)
Ltac protocol :=
  repeat first
    [ apply logs_then_nil
    | apply logs_then_cons
    | apply logs_then_app; [apply progress_logs_all_logs|]
    | apply logs_then_terminal; [reflexivity | done] ].

Section Worker.

Variable HAS_TTS : bool.

Local Abbreviation load_model := (TTSWorker.load_model HAS_TTS).
Local Abbreviation handle := (TTSWorker.handle HAS_TTS).
Local Abbreviation reachable := (TTSWorker.reachable HAS_TTS).

(** Every command appends to the result queue zero or more Log results
    followed by at most one terminal result, and that one answers the
    command: VoiceReady for the requested voice after LoadVoice, AudioReady
    after Generate, nothing at all after Shutdown. *)
Theorem handle_protocol env cmd w :
  exists out,
    result_queue (exec (handle env cmd) w) = result_queue w ++ out /\
    logs_then (answers cmd) out /\
    (cmd = quit_cmd -> out = []).
Proof.
  destruct cmd as [voice_name|text file_path|]; unfold TTSWorker.handle.
  - run_method.
    all: rewrite <- ?app_assoc; eexists; split; [reflexivity|].
    all: split; [simpl; protocol | discriminate].
  - run_method.
    all: rewrite <- ?app_assoc; eexists; split; [reflexivity|].
    all: split; [simpl; protocol | discriminate].
  - exists []. simpl. rewrite app_nil_r. repeat split. apply logs_then_nil.
Qed.

Lemma load_model_matches env name w :
  engine_matches w -> engine_matches (exec (load_model env name) w).
Proof.
  intros Hinv. run_method; try exact Hinv.
  all: intros e [= <-]; by eexists name, _.
Qed.

Lemma handle_matches env cmd w :
  engine_matches w -> engine_matches (exec (handle env cmd) w).
Proof.
  intros Hinv. destruct cmd as [voice_name|text file_path|].
  - pose proof (load_model_matches env voice_name w Hinv) as H.
    unfold TTSWorker.handle. simpl in *.
    by destruct (TTSWorker.load_model HAS_TTS env voice_name w).
  - destruct (generate_speech_engine env text file_path w) as [Ht Hn].
    unfold TTSWorker.handle. simpl in *.
    destruct (TTSWorker.generate_speech env text file_path w) as [u w'].
    unfold engine_matches in *. simpl in *. by rewrite Ht, Hn.
  - exact Hinv.
Qed.

(** In every reachable state the installed engine, if any, is the one
    built from the catalog entry of the current voice name: the worker's
    two fields never disagree. *)
Theorem reachable_engine_matches w : reachable w -> engine_matches w.
Proof.
  induction 1 as [|w env cmd _ IH _|w _ IH].
  - intros e He. discriminate He.
  - by apply handle_matches.
  - exact IH.
Qed.

(** [load_model] changes the engine and the voice name only when it
    reports VoiceReady: on every other path (library missing, unknown
    voice, failed download, constructor raising) both fields keep their
    values and only Log results are emitted. *)
Theorem load_model_changes_engine_only_on_success env name w :
  model_loaded name ∉ emitted (load_model env name) w ->
  tts (exec (load_model env name) w) = tts w /\
  current_voice_name (exec (load_model env name) w) = current_voice_name w /\
  Forall (fun r => is_log r = true) (emitted (load_model env name) w).
Proof.
  run_method; queue_norm; intros H.
  all: try (exfalso; apply H; set_solver).
  all: repeat split; try done.
  all: repeat first
         [ apply Forall_nil_2
         | apply Forall_cons_2; [reflexivity|]
         | apply Forall_app_2; [apply progress_logs_all_logs|] ].
Qed.

(** Without the sherpa-onnx library no engine is ever installed, and
    every command is answered by Log results only: neither VoiceReady nor
    AudioReady is ever emitted. *)
Theorem no_library_only_logs env cmd w :
  HAS_TTS = false -> reachable w ->
  tts w = None /\
  exists logs,
    result_queue (exec (handle env cmd) w) = result_queue w ++ logs /\
    Forall (fun r => is_log r = true) logs.
Proof.
  intros Hlib Hreach.
  assert (tts w = None) as Ht.
  { destruct (tts w) as [e|] eqn:He; [|done].
    destruct (reachable_inv HAS_TTS w Hreach) as [Hlib' _]; [by eexists|].
    congruence. }
  split; [done|]. rewrite Hlib.
  destruct cmd as [voice_name|text file_path|]; unfold TTSWorker.handle.
  - unfold TTSWorker.load_model. simpl. eexists. split; [reflexivity|].
    by repeat constructor.
  - unfold TTSWorker.generate_speech. simpl. rewrite Ht. simpl.
    eexists. split; [reflexivity|]. by repeat constructor.
  - exists []. simpl. by rewrite app_nil_r.
Qed.

(** [load_model] goes to the network or unpacks an archive only for what
    is missing: with the model file on disk it calls neither
    [urlretrieve] nor the tar extraction, and with the archive on disk it
    does not call [urlretrieve]. *)
Theorem load_model_acquires_only_when_missing env name model_info w :
  MODELS !! name = Some model_info ->
  (path_exists env (os_path_join (dir model_info) (onnx model_info)) = true ->
   List.filter is_acquisition (called (load_model env name) w) = []) /\
  (path_exists env (archive model_info) = true ->
   List.filter is_urlretrieve (called (load_model env name) w) = []).
Proof.
  intros Hm. split; intros Hp.
  all: run_method; queue_norm; try done.
  all: simplify_eq; rewrite Hp in *; discriminate.
Qed.

(** A failed download ends the command: the progress reported so far and
    "Download failed." are logged, the archive is not unpacked, no engine
    is built, and the installed engine stays. *)
Theorem load_model_download_failure env name model_info w :
  HAS_TTS = true ->
  ~ (is_Some (tts w) /\ current_voice_name w = Some name) ->
  MODELS !! name = Some model_info ->
  path_exists env (os_path_join (dir model_info) (onnx model_info)) = false ->
  path_exists env (archive model_info) = false ->
  urlretrieve_ok env = false ->
  emitted (load_model env name) w =
    log_result ("Downloading " +:+ name +:+ "...") ::
    progress_logs (reporthook_calls env) ++ [log_result "Download failed."] /\
  called (load_model env name) w =
    [urlretrieve (url model_info) (archive model_info)] /\
  tts (exec (load_model env name) w) = tts w /\
  current_voice_name (exec (load_model env name) w) = current_voice_name w.
Proof.
  intros -> Hslow Hm Ho Ha Hd.
  unfold TTSWorker.load_model, emitted, called. simpl.
  destruct (bool_decide (is_Some (tts w)) &&
            bool_decide (current_voice_name w = Some name)) eqn:Hfast.
  { apply andb_true_iff in Hfast as [Ht Hn].
    apply bool_decide_eq_true in Ht, Hn. by destruct Hslow. }
  rewrite Hm. simpl. rewrite Ho, Ha. simpl.
  rewrite download_file_eq, Hd. simpl. queue_norm. done.
Qed.

(** When the engine raises during synthesis, the error is logged as
    "Gen Error", no AudioReady is emitted and no file is created or
    written. *)
Theorem generate_speech_engine_error env text file_path w engine err :
  tts w = Some engine ->
  generate_outcome env = inl err ->
  emitted (generate_speech env text file_path) w =
    [log_result "Generating..."; log_result ("Gen Error: " +:+ err)] /\
  called (generate_speech env text file_path) w = [tts_generate engine text].
Proof.
  intros Ht Hg. unfold TTSWorker.generate_speech, emitted, called. simpl.
  rewrite Ht. simpl. rewrite Hg. simpl. queue_norm. done.
Qed.

(** When the audio cannot be written, the error is logged as "Gen Error"
    and no AudioReady is emitted.  For a temporary destination the file
    made by [mkstemp] is then left behind unreported. *)
Theorem generate_speech_write_error env text file_path w engine audio err :
  tts w = Some engine ->
  generate_outcome env = inr audio ->
  wavfile_write_raises env = Some err ->
  (truthy file_path = false ->
   forall p, mkstemp_outcome env = inr p ->
   emitted (generate_speech env text file_path) w =
     [log_result "Generating...";
      log_result ("Done (" +:+ elapsed env +:+ "s)");
      log_result ("Gen Error: " +:+ err)] /\
   called (generate_speech env text file_path) w =
     [tts_generate engine text; mkstemp ".wav";
      wavfile_write p (sample_rate audio) (samples audio)]) /\
  (forall p, file_path = Some p -> p <> "" ->
   emitted (generate_speech env text file_path) w =
     [log_result "Generating...";
      log_result ("Done (" +:+ elapsed env +:+ "s)");
      log_result ("Gen Error: " +:+ err)] /\
   called (generate_speech env text file_path) w =
     [tts_generate engine text;
      wavfile_write p (sample_rate audio) (samples audio)]).
Proof.
  intros Ht Hg Hw. split.
  - intros Hfalsy p Hp.
    unfold TTSWorker.generate_speech, emitted, called. simpl.
    rewrite Ht. simpl. rewrite Hg. simpl. rewrite Hfalsy. simpl.
    rewrite Hp. simpl. rewrite Hw. simpl. queue_norm. done.
  - intros p -> Hne%String.eqb_neq.
    unfold TTSWorker.generate_speech, emitted, called. simpl.
    rewrite Ht. simpl. rewrite Hg. simpl. rewrite Hne. simpl.
    rewrite Hw. simpl. queue_norm. done.
Qed.

(** What each command leaves alone: LoadVoice never stops the thread;
    Generate changes neither the engine, nor the voice name, nor the
    running flag; Shutdown clears the running flag and touches nothing
    else. *)
Theorem handle_frame env cmd w :
  let w' := exec (handle env cmd) w in
  match cmd with
  | load_model_cmd _ => running w' = running w
  | generate_cmd _ _ =>
      tts w' = tts w /\ current_voice_name w' = current_voice_name w /\
      running w' = running w
  | quit_cmd =>
      tts w' = tts w /\ current_voice_name w' = current_voice_name w /\
      running w' = false /\ result_queue w' = result_queue w /\
      calls w' = calls w
  end.
Proof.
  destruct cmd as [voice_name|text file_path|]; unfold TTSWorker.handle.
  - run_method; done.
  - run_method; done.
  - done.
Qed.

Lemma handle_break env cmd w :
  (handle env cmd w).1 = false -> running (exec (handle env cmd) w) = false.
Proof.
  destruct cmd as [voice_name|text file_path|]; unfold TTSWorker.handle; simpl.
  - by destruct (TTSWorker.load_model HAS_TTS env voice_name w).
  - by destruct (TTSWorker.generate_speech env text file_path w).
  - done.
Qed.

(** The loop of [run] ends at the first Shutdown: the commands behind it
    are never executed, and the running flag is cleared. *)
Theorem run_loop_stops_at_quit cmds env rest w :
  exec (run_loop HAS_TTS (cmds ++ (quit_cmd, env) :: rest)) w =
  exec (run_loop HAS_TTS (cmds ++ [(quit_cmd, env)])) w /\
  running (exec (run_loop HAS_TTS (cmds ++ [(quit_cmd, env)])) w) = false.
Proof.
  revert w. induction cmds as [|[cmd env'] cmds IH]; intros w; [done|].
  pose proof (handle_break env' cmd w) as Hbreak.
  simpl in *.
  destruct (TTSWorker.handle HAS_TTS env' cmd w) as [continue w'].
  destruct continue; simpl in *; [apply IH | split; [done | by apply Hbreak]].
Qed.

End Worker.

Lemma reachable_engine_matches_witness :
  exists n model_info,
    current_voice_name amy_loaded = Some n /\
    MODELS !! n = Some model_info /\
    amy_engine = engine_for model_info.
Proof.
  apply (reachable_engine_matches true amy_loaded amy_loaded_reachable amy_engine).
  reflexivity.
Defined.

Lemma load_model_changes_engine_only_on_success_witness :
  tts (exec (load_model true env_engine_fails "Male (Ryan)") amy_loaded) =
    tts amy_loaded /\
  current_voice_name (exec (load_model true env_engine_fails "Male (Ryan)") amy_loaded) =
    current_voice_name amy_loaded /\
  Forall (fun r => is_log r = true)
    (emitted (load_model true env_engine_fails "Male (Ryan)") amy_loaded).
Proof.
  apply (load_model_changes_engine_only_on_success true env_engine_fails
           "Male (Ryan)" amy_loaded).
  vm_compute. intros H.
  repeat (apply elem_of_cons in H as [H|H]; [discriminate H|]).
  by apply elem_of_nil in H.
Defined.

(** The worker of a program started without the library, after one
    attempt to load a voice. *)
Lemma no_library_only_logs_witness :
  tts (exec (handle false env_installed (load_model_cmd "Female (Amy)")) started) = None /\
  exists logs,
    result_queue
      (exec (handle false env_installed (generate_cmd "hello" None))
         (exec (handle false env_installed (load_model_cmd "Female (Amy)")) started)) =
    result_queue
      (exec (handle false env_installed (load_model_cmd "Female (Amy)")) started) ++ logs /\
    Forall (fun r => is_log r = true) logs.
Proof.
  apply (no_library_only_logs false env_installed (generate_cmd "hello" None)).
  - reflexivity.
  - apply reachable_handle; [apply reachable_start | reflexivity].
Defined.

Lemma load_model_acquires_only_when_missing_witness :
  List.filter is_acquisition
    (called (load_model true env_installed "Male (Ryan)") amy_loaded) = [] /\
  List.filter is_urlretrieve
    (called (load_model true env_unpack_fails "Female (Amy)") started) = [].
Proof.
  split.
  - destruct (load_model_acquires_only_when_missing true env_installed
                "Male (Ryan)" _ amy_loaded eq_refl) as [Hlocal _].
    apply Hlocal. reflexivity.
  - destruct (load_model_acquires_only_when_missing true env_unpack_fails
                "Female (Amy)" _ started eq_refl) as [_ Harchive].
    apply Harchive. reflexivity.
Defined.

Lemma load_model_download_failure_witness :
  emitted (load_model true env_download_breaks "Male (Ryan)") amy_loaded =
    [log_result "Downloading Male (Ryan)...";
     log_result "Downloading: 0%";
     log_result "Downloading: 51%";
     log_result "Download failed."] /\
  called (load_model true env_download_breaks "Male (Ryan)") amy_loaded =
    [urlretrieve
       "https://github.com/k2-fsa/sherpa-onnx/releases/download/tts-models/vits-piper-en_US-ryan-low.tar.bz2"
       "vits-piper-en_US-ryan-low.tar.bz2"] /\
  tts (exec (load_model true env_download_breaks "Male (Ryan)") amy_loaded) =
    Some amy_engine /\
  current_voice_name (exec (load_model true env_download_breaks "Male (Ryan)") amy_loaded) =
    Some "Female (Amy)".
Proof.
  assert (~ (is_Some (tts amy_loaded) /\
             current_voice_name amy_loaded = Some "Male (Ryan)")) as Hslow.
  { intros [_ Hn]. discriminate Hn. }
  exact (load_model_download_failure true env_download_breaks "Male (Ryan)"
           ryan_info amy_loaded eq_refl Hslow eq_refl eq_refl eq_refl eq_refl).
Defined.

Lemma generate_speech_engine_error_witness :
  emitted (generate_speech env_synthesis_fails "hello" None) amy_loaded =
    [log_result "Generating..."; log_result "Gen Error: bad input"] /\
  called (generate_speech env_synthesis_fails "hello" None) amy_loaded =
    [tts_generate amy_engine "hello"].
Proof.
  apply (generate_speech_engine_error env_synthesis_fails "hello" None
           amy_loaded amy_engine "bad input"); reflexivity.
Defined.

Lemma generate_speech_write_error_witness :
  called (generate_speech env_write_fails "hello" None) amy_loaded =
    [tts_generate amy_engine "hello"; mkstemp ".wav";
     wavfile_write "/tmp/tmpabc.wav" 16000 []] /\
  emitted (generate_speech env_write_fails "hello" (Some "/out.wav")) amy_loaded =
    [log_result "Generating..."; log_result "Done (0.10s)";
     log_result "Gen Error: disk full"].
Proof.
  split.
  - destruct (generate_speech_write_error env_write_fails "hello" None
                amy_loaded amy_engine {| samples := []; sample_rate := 16000 |}
                "disk full" eq_refl eq_refl eq_refl) as [Htemp _].
    destruct (Htemp eq_refl "/tmp/tmpabc.wav" eq_refl) as [_ Hc]. exact Hc.
  - destruct (generate_speech_write_error env_write_fails "hello" (Some "/out.wav")
                amy_loaded amy_engine {| samples := []; sample_rate := 16000 |}
                "disk full" eq_refl eq_refl eq_refl) as [_ Hgiven].
    destruct (Hgiven "/out.wav" eq_refl) as [He _]; [discriminate | exact He].
Defined.

End WorkerMore.

(** * Further properties of the controller *)

Module AppMore.
Import OfflineTTSApp AppVocabulary AppSpec.

Section App.

Variable HAS_PYGAME : bool.

Local Abbreviation step := (OfflineTTSApp.step HAS_PYGAME).
Local Abbreviation process_result := (OfflineTTSApp.process_result HAS_PYGAME).
Local Abbreviation run_events := (OfflineTTSApp.run_events HAS_PYGAME).
Local Abbreviation reachable := (OfflineTTSApp.reachable HAS_PYGAME).
Local Abbreviation on_stop := (OfflineTTSApp.on_stop HAS_PYGAME).
Local Abbreviation on_pause := (OfflineTTSApp.on_pause HAS_PYGAME).
Local Abbreviation on_resume := (OfflineTTSApp.on_resume HAS_PYGAME).
Local Abbreviation on_ff := (OfflineTTSApp.on_ff HAS_PYGAME).
Local Abbreviation on_gen_play := (OfflineTTSApp.on_gen_play HAS_PYGAME).

(** Stop works from every state: with pygame the mixer is stopped, the
    state is Stopped and the four transport buttons are disabled, whatever
    was going on (so a second Stop changes nothing more); the path of the
    last file is kept.  Without pygame Stop does nothing. *)
Theorem on_stop_from_any_state a :
  let a' := exec on_stop a in
  if HAS_PYGAME then
    playback_state a' = Stopped /\
    btn_pause a' = DISABLED /\ btn_resume a' = DISABLED /\
    btn_stop a' = DISABLED /\ btn_ff a' = DISABLED /\
    mixer a' = mixer a ++ [music_stop] /\
    audio_file a' = audio_file a /\
    btn_gen_play a' = btn_gen_play a /\
    cmd_queue a' = cmd_queue a
  else a' = a.
Proof.
  unfold OfflineTTSApp.on_stop. destruct HAS_PYGAME; run_gui; [done|].
  by destruct a.
Qed.

Lemma step_artifact_inv ev a :
  artifact_inv HAS_PYGAME a -> artifact_inv HAS_PYGAME (exec (step ev) a).
Proof.
  unfold artifact_inv.
  destruct ev as [voice_name|text|text f| | | | | |res out];
    try destruct res as [msg|voice|path is_temp].
  all: destruct HAS_PYGAME; run_gui; intros (Hplay & Hno & Hff).
  all: try (split; [|split]; (done || congruence)).
  all: try (split; [|split]; try done; try congruence; intros; simplify_eq).
  all: split; [done|].
  all: first
         [ assert (exists p, audio_file a = Some p /\ p <> "" /\
                             music_load p ∈ mixer a) as (p & Hp & Hne & Hin)
             by (apply Hplay; (done || congruence));
           exists p; repeat split; [done | done |];
           rewrite ?elem_of_app; auto
         | eexists; split; [reflexivity|];
           split; [by apply String.eqb_neq|];
           rewrite ?elem_of_app, ?elem_of_cons; auto ].
Qed.

Lemma reachable_artifact_inv a : reachable a -> artifact_inv HAS_PYGAME a.
Proof.
  induction 1 as [|a ev _ IH|a _ IH].
  - by repeat split.
  - by apply step_artifact_inv.
  - exact IH.
Qed.

(** Whenever the controller is playing or paused, pygame is present and
    the file it holds has a non-empty path that was loaded into the
    mixer: the transport buttons never act on a file that was not loaded. *)
Theorem playing_has_loaded_artifact a :
  reachable a -> playback_state a <> Stopped ->
  HAS_PYGAME = true /\
  exists p, audio_file a = Some p /\ p <> "" /\ music_load p ∈ mixer a.
Proof.
  intros Hreach Hstate.
  destruct (reachable_artifact_inv a Hreach) as (Hplay & _ & _).
  apply Hplay. unfold playback_state in Hstate.
  by destruct (is_playing a).
Qed.

(** Without pygame the controller never calls the mixer and never leaves
    Stopped: every transport button stays disabled and no file is held. *)
Theorem no_pygame_no_playback a :
  HAS_PYGAME = false -> reachable a ->
  mixer a = [] /\ audio_file a = None /\ playback_state a = Stopped /\
  btn_pause a = DISABLED /\ btn_resume a = DISABLED /\
  btn_stop a = DISABLED /\ btn_ff a = DISABLED.
Proof.
  intros Hno Hreach.
  destruct (reachable_artifact_inv a Hreach) as (Hplay & Hmixer & Hff).
  destruct (reachable_buttons_inv HAS_PYGAME a Hreach)
    as (Hp & Hpause & Hresume & Hstop).
  destruct (Hmixer Hno) as [Hm Hfile].
  assert (is_playing a = false) as Hplaying.
  { destruct (is_playing a); [|done]. destruct Hplay as [Hyes _]; congruence. }
  assert (is_paused a = false) as Hpaused.
  { destruct (is_paused a); [|done]. rewrite Hp in Hplaying; done. }
  unfold playback_state. rewrite Hff, Hpause, Hresume, Hstop, Hplaying, Hpaused.
  done.
Qed.

(** Pause followed by Resume is a round trip: from Playing the controller
    goes to Paused and back to Playing with the same buttons and the same
    file; the mixer got exactly a pause and an unpause. *)
Theorem pause_resume_round_trip a :
  reachable a -> playback_state a = Playing ->
  let a1 := exec on_pause a in
  let a2 := exec on_resume a1 in
  playback_state a1 = Paused /\
  playback_state a2 = Playing /\
  btn_pause a2 = btn_pause a /\ btn_resume a2 = btn_resume a /\
  btn_stop a2 = btn_stop a /\ btn_ff a2 = btn_ff a /\
  audio_file a2 = audio_file a /\
  btn_gen_play a2 = btn_gen_play a /\ cmd_queue a2 = cmd_queue a /\
  mixer a2 = mixer a ++ [music_pause; music_unpause].
Proof.
  intros Hreach Hstate.
  destruct (reachable_artifact_inv a Hreach) as (Hplay & _ & Hff).
  destruct (reachable_buttons_inv HAS_PYGAME a Hreach)
    as (_ & Hpause & Hresume & Hstop).
  unfold playback_state in Hstate.
  destruct (is_playing a) eqn:Hplaying; [|done].
  destruct (is_paused a) eqn:Hpaused; [done|].
  destruct Hplay as [Hpy _]; [done|].
  unfold OfflineTTSApp.on_pause, OfflineTTSApp.on_resume, update_media_buttons,
         playback_state.
  rewrite Hpy. simpl. rewrite Hplaying, Hpaused. simpl.
  rewrite Hplaying. simpl.
  rewrite Hff, Hpause, Hresume, Hstop. simpl.
  by rewrite <- app_assoc.
Qed.

(** Actions that are not available are no-ops: Pause unless playing,
    Resume unless paused, skip unless playing, Generate & Play without
    text, Save without text or without a chosen file leave the whole
    controller state as it is. *)
Theorem invalid_actions_are_noops a :
  (playback_state a <> Playing -> exec on_pause a = a) /\
  (is_paused a = false -> exec on_resume a = a) /\
  (is_playing a = false -> exec on_ff a = a) /\
  exec (on_gen_play "") a = a /\
  (forall f, exec (on_save "" f) a = a) /\
  (forall text, exec (on_save text "") a = a).
Proof.
  unfold playback_state.
  repeat split; intros; run_gui; try (by destruct a); try congruence.
  all: destruct HAS_PYGAME, (is_playing a), (is_paused a); simpl in *; congruence.
Qed.

(** Selecting a voice, saving, skipping, closing, and every result other
    than a temporary AudioReady leave the playback state, the file, the
    four transport buttons alone, and (closing apart) the mixer too. *)
Theorem playback_frame ev a :
  touches_playback ev = false ->
  let a' := exec (step ev) a in
  is_playing a' = is_playing a /\ is_paused a' = is_paused a /\
  audio_file a' = audio_file a /\
  btn_pause a' = btn_pause a /\ btn_resume a' = btn_resume a /\
  btn_stop a' = btn_stop a /\ btn_ff a' = btn_ff a /\
  (ev <> window_closed -> mixer a' = mixer a).
Proof.
  destruct ev as [voice_name|text|text f| | | | | |res out];
    try destruct res as [msg|voice|path [|]].
  all: intros Hev; try discriminate Hev; clear Hev.
  all: run_gui; done.
Qed.

(** Each event appends at most one command to the command queue, never
    removes or reorders one, and what it appends is well formed; a result
    from the worker never makes the controller enqueue anything. *)
Theorem step_enqueues ev a :
  exists cmds,
    cmd_queue (exec (step ev) a) = cmd_queue a ++ cmds /\
    (length cmds <= 1)%nat /\
    Forall (fun c => well_formed_cmd c = true) cmds /\
    (forall res out, ev = result_received res out -> cmds = []).
Proof.
  destruct ev as [voice_name|text|text f| | | | | |res out];
    try destruct res as [msg|voice|path is_temp].
  all: run_gui.
  all: try (exists []; rewrite app_nil_r;
            repeat split; ((simpl; lia) || constructor)).
  all: eexists [_]; (split; [reflexivity|]); (split; [simpl; lia|]);
       (split; [|discriminate]).
  all: apply Forall_cons_2; [|apply Forall_nil_2]; simpl.
  all: repeat match goal with H : _ = _ |- _ => rewrite H end; done.
Qed.

Lemma step_cmds_well_formed ev a :
  Forall (fun c => well_formed_cmd c = true) (cmd_queue a) ->
  Forall (fun c => well_formed_cmd c = true) (cmd_queue (exec (step ev) a)).
Proof.
  intros Hq.
  destruct ev as [voice_name|text|text f| | | | | |res out];
    try destruct res as [msg|voice|path is_temp].
  all: run_gui; try done.
  all: apply Forall_app; split; [done|].
  all: apply Forall_cons_2; [|apply Forall_nil_2]; simpl.
  all: repeat match goal with H : _ = _ |- _ => rewrite H end; done.
Qed.

(** Every command waiting on the command queue is well formed: the
    controller never asks for speech from empty text, nor for a file with
    an empty name. *)
Theorem reachable_cmds_well_formed a :
  reachable a -> Forall (fun c => well_formed_cmd c = true) (cmd_queue a).
Proof.
  induction 1 as [|a ev _ IH|a _ IH].
  - constructor.
  - by apply step_cmds_well_formed.
  - simpl. destruct (cmd_queue a) as [|c q]; [done|]. by inversion IH.
Qed.

Lemma step_keeps_save_enabled ev a :
  btn_save a = NORMAL -> btn_save (exec (step ev) a) = NORMAL.
Proof.
  destruct ev as [voice_name|text|text f| | | | | |res out];
    try destruct res as [msg|voice|path is_temp].
  all: run_gui; done.
Qed.

(** Once a VoiceReady has enabled the Save button nothing disables it
    again: it stays enabled while a voice is loading, while speech is
    being generated, and after failures. *)
Theorem btn_save_stays_enabled evs a :
  btn_save a = NORMAL -> btn_save (exec (run_events evs) a) = NORMAL.
Proof.
  unfold OfflineTTSApp.run_events. revert a.
  induction evs as [|ev evs IH]; intros a Ha; [done|].
  pose proof (step_keeps_save_enabled ev a Ha) as Hstep.
  simpl in *. destruct (OfflineTTSApp.step HAS_PYGAME ev a) as [u a'].
  by apply IH.
Qed.

(** A poll empties the result queue when no AudioReady on it has an
    empty path; an AudioReady with an empty path ends the poll at once,
    with the generate button enabled and the results behind it left on
    the queue for the next poll. *)
Theorem process_worker_results_drains outs q a :
  Forall (fun r => has_empty_path r = false) q ->
  (process_worker_results HAS_PYGAME outs q a).1 = [] /\
  forall is_temp rest,
    (process_worker_results HAS_PYGAME outs
       (q ++ generation_complete "" is_temp :: rest) a).1 = rest /\
    btn_gen_play
      (process_worker_results HAS_PYGAME outs
         (q ++ generation_complete "" is_temp :: rest) a).2 = NORMAL.
Proof.
  intros Hq. revert outs a.
  induction Hq as [|res q Hres _ IH]; intros outs a.
  - split; [done|]. intros is_temp rest. by simpl.
  - assert ((OfflineTTSApp.process_result HAS_PYGAME (hd mixer_ok outs) res a).1
            = true) as Hcont.
    { destruct res as [msg|voice|path is_temp]; simpl; try done.
      simpl in Hres. rewrite Hres. simpl.
      destruct is_temp; simpl; [|done].
      by destruct (load_and_play_audio HAS_PYGAME (hd mixer_ok outs) path _). }
    simpl.
    destruct (OfflineTTSApp.process_result HAS_PYGAME (hd mixer_ok outs) res a)
      as [continue a'].
    simpl in Hcont. subst continue. apply IH.
Qed.

Lemma string_app_assoc (s1 s2 s3 : string) :
  (s1 +:+ s2) +:+ s3 = s1 +:+ (s2 +:+ s3).
Proof.
  induction s1 as [|c s1 IH]; [done|].
  change (String c ((s1 +:+ s2) +:+ s3) = String c (s1 +:+ (s2 +:+ s3))).
  by rewrite IH.
Qed.

Lemma string_app_nil_r (s : string) : s +:+ "" = s.
Proof.
  induction s as [|c s IH]; [done|].
  change (String c (s +:+ "") = String c s). by rewrite IH.
Qed.

Lemma drop_continuation_suffix s :
  exists pre, s = pre +:+ drop_continuation s.
Proof.
  induction s as [|c s IH]; [by exists ""|].
  simpl. destruct (is_continuation c); [|by exists ""].
  destruct IH as [pre Hpre]. exists (String c pre).
  change (String c s = String c (pre +:+ drop_continuation s)).
  by rewrite <- Hpre.
Qed.

Lemma drop_continuation_starts s :
  starts_on_char (drop_continuation s) = true.
Proof.
  induction s as [|c s IH]; [done|].
  simpl. destruct (is_continuation c) eqn:Hc; [done|]. simpl. by rewrite Hc.
Qed.

Lemma code_points_drop_continuation s :
  code_points (drop_continuation s) = code_points s.
Proof.
  induction s as [|c s IH]; [done|].
  simpl. destruct (is_continuation c) eqn:Hc; [done|]. simpl. by rewrite Hc.
Qed.

Lemma drop_chars_suffix k s : exists pre, s = pre +:+ drop_chars k s.
Proof.
  revert s. induction k as [|k IH]; intros s; [by exists ""|].
  destruct s as [|c s]; [by exists ""|]. simpl.
  destruct (drop_continuation_suffix s) as [pre1 Hpre1].
  destruct (IH (drop_continuation s)) as [pre2 Hpre2].
  exists (String c (pre1 +:+ pre2)).
  change (String c s =
          String c ((pre1 +:+ pre2) +:+ drop_chars k (drop_continuation s))).
  by rewrite string_app_assoc, <- Hpre2, <- Hpre1.
Qed.

Lemma code_points_drop_chars k s :
  starts_on_char s = true ->
  code_points (drop_chars k s) = (code_points s - k)%nat.
Proof.
  revert s. induction k as [|k IH]; intros s Hs; [simpl; lia|].
  destruct s as [|c s]; [done|]. simpl in *.
  apply negb_true_iff in Hs. rewrite Hs.
  rewrite IH by apply drop_continuation_starts.
  by rewrite code_points_drop_continuation.
Qed.

(** The status line shows the end of the last Log message, counted in
    characters as Python's slice does: it is a suffix of the message, the
    whole message when that has at most 30 characters, and exactly its
    last 30 characters otherwise. *)
Theorem status_shows_message_tail out msg a :
  starts_on_char msg = true ->
  let a' := exec (process_result out (log_result msg)) a in
  (exists pre, msg = pre +:+ lbl_status a') /\
  (code_points (lbl_status a') <= 30)%nat /\
  ((code_points msg <= 30)%nat -> lbl_status a' = msg) /\
  ((30 <= code_points msg)%nat -> code_points (lbl_status a') = 30%nat).
Proof.
  intros Hmsg. simpl. unfold last_chars.
  split; [apply drop_chars_suffix|].
  rewrite (code_points_drop_chars _ _ Hmsg).
  split; [lia|]. split; [|lia].
  intros Hlen. by replace (code_points msg - 30)%nat with 0%nat by lia.
Qed.

(** Log results are shown in the order they were produced: after a poll
    over Log results the log widget holds its old text followed by one
    line per message, in queue order; the generate button, the playback
    state and the command queue are untouched. *)
Theorem logs_shown_in_order outs q a :
  Forall (fun r => is_log r = true) q ->
  let a' := (process_worker_results HAS_PYGAME outs q a).2 in
  log_text a' = log_text a +:+ log_lines q /\
  btn_gen_play a' = btn_gen_play a /\
  is_playing a' = is_playing a /\ is_paused a' = is_paused a /\
  cmd_queue a' = cmd_queue a.
Proof.
  intros Hq. revert outs a.
  induction Hq as [|res q Hres _ IH]; intros outs a.
  - simpl. repeat split. by rewrite string_app_nil_r.
  - destruct res as [msg|voice|path is_temp]; try discriminate Hres.
    simpl.
    match goal with
    | |- context [process_worker_results _ _ _ ?a1] =>
        destruct (IH (tl outs) a1) as (Hlog & Hgen & Hplay & Hpause & Hcmd)
    end.
    simpl in *. rewrite Hlog, Hgen, Hplay, Hpause, Hcmd.
    repeat split. apply string_app_assoc.
Qed.

Lemma process_result_cmd_queue out res a :
  cmd_queue (exec (process_result out res) a) = cmd_queue a.
Proof. destruct res as [msg|voice|path is_temp]; run_gui; done. Qed.

Lemma process_worker_results_cmd_queue outs q a :
  cmd_queue (process_worker_results HAS_PYGAME outs q a).2 = cmd_queue a.
Proof.
  revert outs a. induction q as [|res q IH]; intros outs a; [done|].
  pose proof (process_result_cmd_queue (hd mixer_ok outs) res a) as Hres.
  simpl in *.
  destruct (OfflineTTSApp.process_result HAS_PYGAME (hd mixer_ok outs) res a)
    as [continue a'].
  simpl in *. destruct continue; [by rewrite IH | done].
Qed.

Lemma process_worker_results_all outs q a :
  Forall (fun r => has_empty_path r = false) q ->
  (process_worker_results HAS_PYGAME outs q a).1 = [].
Proof.
  intros Hq. revert outs a.
  induction Hq as [|res q Hres _ IH]; intros outs a; [done|].
  assert ((OfflineTTSApp.process_result HAS_PYGAME (hd mixer_ok outs) res a).1
          = true) as Hcont.
  { destruct res as [msg|voice|path is_temp]; simpl; try done.
    simpl in Hres. rewrite Hres. simpl.
    destruct is_temp; simpl; [|done].
    by destruct (load_and_play_audio HAS_PYGAME (hd mixer_ok outs) path _). }
  simpl.
  destruct (OfflineTTSApp.process_result HAS_PYGAME (hd mixer_ok outs) res a)
    as [continue a'].
  simpl in Hcont. subst continue. apply IH.
Qed.

End App.

Lemma paused_app_reachable : reachable true paused_app.
Proof. apply reachable_step, playing_app_reachable. Qed.

Lemma playing_has_loaded_artifact_witness :
  true = true /\
  exists p, audio_file paused_app = Some p /\ p <> "" /\
            music_load p ∈ mixer paused_app.
Proof.
  apply (playing_has_loaded_artifact true paused_app paused_app_reachable).
  discriminate.
Defined.

Lemma no_pygame_no_playback_witness :
  mixer no_pygame_app = [] /\ audio_file no_pygame_app = None /\
  playback_state no_pygame_app = Stopped /\
  btn_pause no_pygame_app = DISABLED /\ btn_resume no_pygame_app = DISABLED /\
  btn_stop no_pygame_app = DISABLED /\ btn_ff no_pygame_app = DISABLED.
Proof.
  apply (no_pygame_no_playback false no_pygame_app eq_refl).
  apply reachable_step, reachable_init.
Defined.

Lemma pause_resume_round_trip_witness :
  playback_state (exec (on_pause true) playing_app) = Paused /\
  playback_state (exec (on_resume true) (exec (on_pause true) playing_app)) = Playing /\
  mixer (exec (on_resume true) (exec (on_pause true) playing_app)) =
    mixer playing_app ++ [music_pause; music_unpause].
Proof.
  destruct (pause_resume_round_trip true playing_app playing_app_reachable eq_refl)
    as (Hpaused & Hplaying & _ & _ & _ & _ & _ & _ & _ & Hmixer).
  split; [exact Hpaused|]. split; [exact Hplaying | exact Hmixer].
Defined.

Lemma playback_frame_witness :
  is_playing (exec (step true (save_clicked "hello" "/out.wav")) playing_app) = true /\
  btn_pause (exec (step true (save_clicked "hello" "/out.wav")) playing_app) = NORMAL.
Proof.
  destruct (playback_frame true (save_clicked "hello" "/out.wav") playing_app eq_refl)
    as (Hplay & _ & _ & Hpause & _).
  split; [exact Hplay | exact Hpause].
Defined.

Lemma busy_app_reachable : reachable true busy_app.
Proof.
  apply (run_events_reachable true). apply reachable_step, reachable_init.
Qed.

Lemma reachable_cmds_well_formed_witness :
  cmd_queue busy_app =
    [generate_cmd "hello" None; generate_cmd "hello" (Some "/out.wav")] /\
  Forall (fun c => well_formed_cmd c = true) (cmd_queue busy_app).
Proof.
  split; [reflexivity|].
  exact (reachable_cmds_well_formed true busy_app busy_app_reachable).
Defined.

Lemma btn_save_stays_enabled_witness :
  btn_save
    (exec (run_events true
             [voice_selected "Male (Ryan)"; gen_play_clicked "hello";
              result_received (log_result "Gen Error: bad input") mixer_ok])
          voice_ready_app) = NORMAL.
Proof. apply (btn_save_stays_enabled true). reflexivity. Defined.

Lemma process_worker_results_drains_witness :
  (process_worker_results true []
     [log_result "Generating..."; generation_complete "/tmp/tmpabc.wav" true]
     voice_ready_app).1 = [] /\
  (process_worker_results true []
     ([log_result "Generating..."; generation_complete "/tmp/tmpabc.wav" true] ++
      generation_complete "" true :: [log_result "Generating..."])
     voice_ready_app).1 = [log_result "Generating..."].
Proof.
  assert (Forall (fun r => has_empty_path r = false)
            [log_result "Generating...";
             generation_complete "/tmp/tmpabc.wav" true]) as Hq
    by (repeat constructor).
  destruct (process_worker_results_drains true [] _ voice_ready_app Hq)
    as [Hall Hstop].
  split; [exact Hall|].
  destruct (Hstop true [log_result "Generating..."]) as [Hrest _]. exact Hrest.
Defined.

Lemma status_shows_message_tail_witness :
  code_points accented_message = 51%nat /\
  String.length accented_message = 55%nat /\
  lbl_status
    (exec (process_result true mixer_ok (log_result accented_message)) init) =
    "te /home/ren" +:+ e_acute +:+ "e/caf" +:+ e_acute +:+
    "/r" +:+ e_acute +:+ "sum" +:+ e_acute +:+ ".wav" /\
  String.length
    (lbl_status
       (exec (process_result true mixer_ok (log_result accented_message)) init)) =
    34%nat /\
  code_points
    (lbl_status
       (exec (process_result true mixer_ok (log_result accented_message)) init)) =
    30%nat.
Proof.
  split; [reflexivity|]. split; [reflexivity|].
  split; [reflexivity|]. split; [reflexivity|].
  destruct (status_shows_message_tail true mixer_ok accented_message init eq_refl)
    as (_ & _ & _ & Hfull).
  apply Hfull. vm_compute. lia.
Defined.

Lemma logs_shown_in_order_witness :
  log_text
    (process_worker_results true []
       [log_result "Generating..."; log_result "Done (0.10s)"] init).2 =
  "" +:+ log_lines [log_result "Generating..."; log_result "Done (0.10s)"].
Proof.
  assert (Forall (fun r => is_log r = true)
            [log_result "Generating..."; log_result "Done (0.10s)"]) as Hq
    by (repeat constructor).
  destruct (logs_shown_in_order true [] _ init Hq) as [Hlog _]. exact Hlog.
Defined.

End AppMore.

(** * Further properties of the two threads together *)

Module SystemMore.
Import System SystemVocabulary.

Lemma log_has_path r : is_log r = true -> AppVocabulary.has_empty_path r = false.
Proof. by destruct r. Qed.

Lemma handle_paths HAS_TTS env cmd w :
  AppVocabulary.well_formed_cmd cmd = true ->
  mkstemp_ok env = true ->
  Forall (fun r => AppVocabulary.has_empty_path r = false) (TTSWorker.result_queue w) ->
  Forall (fun r => AppVocabulary.has_empty_path r = false)
    (TTSWorker.result_queue (exec (TTSWorker.handle HAS_TTS env cmd) w)).
Proof.
  unfold mkstemp_ok.
  destruct cmd as [voice_name|text file_path|]; unfold TTSWorker.handle.
  - intros _ _. WorkerSpec.run_method; intros Hq.
    all: rewrite ?Forall_app; repeat split; try done.
    all: try (by repeat constructor).
    all: eapply Forall_impl;
           [apply WorkerMore.progress_logs_all_logs | apply log_has_path].
  - WorkerSpec.run_method; intros Hcmd Hstemp Hq.
    all: rewrite ?Forall_app; repeat split; try done.
    all: try (by repeat constructor).
    all: apply Forall_cons_2; [|apply Forall_nil_2]; simpl.
    all: try (destruct (String.eqb s "") eqn:?; simpl in *; congruence).
    all: destruct (String.eqb s0 "") eqn:?; simpl in *; congruence.
  - done.
Qed.

Lemma handle_running HAS_TTS env cmd w :
  cmd <> quit_cmd ->
  TTSWorker.running (exec (TTSWorker.handle HAS_TTS env cmd) w) =
  TTSWorker.running w.
Proof.
  destruct cmd as [voice_name|text file_path|]; unfold TTSWorker.handle.
  - intros _. WorkerSpec.run_method; done.
  - intros _. WorkerSpec.run_method; done.
  - done.
Qed.

Lemma step_no_quit HAS_PYGAME ev a :
  ev <> OfflineTTSApp.window_closed ->
  quit_cmd ∉ OfflineTTSApp.cmd_queue a ->
  quit_cmd ∉ OfflineTTSApp.cmd_queue (exec (OfflineTTSApp.step HAS_PYGAME ev) a).
Proof.
  intros Hev Hq.
  destruct ev as [voice_name|text|text f| | | | | |res out];
    try destruct res as [msg|voice|path is_temp]; try done.
  all: AppSpec.run_gui; try done.
  all: rewrite elem_of_app, list_elem_of_singleton; intros [H|H]; done.
Qed.

Section Threads.

Variables HAS_TTS HAS_PYGAME : bool.

Local Abbreviation run := (System.run HAS_TTS HAS_PYGAME).
Local Abbreviation step := (System.step HAS_TTS HAS_PYGAME).

Lemma step_paths st s :
  sound_step st = true ->
  Forall (fun c => AppVocabulary.well_formed_cmd c = true)
    (OfflineTTSApp.cmd_queue (app s)) /\
  Forall (fun r => AppVocabulary.has_empty_path r = false)
    (TTSWorker.result_queue (worker s)) ->
  Forall (fun c => AppVocabulary.well_formed_cmd c = true)
    (OfflineTTSApp.cmd_queue (app (step st s))) /\
  Forall (fun r => AppVocabulary.has_empty_path r = false)
    (TTSWorker.result_queue (worker (step st s))).
Proof.
  intros Hst [Hc Hr]. destruct st as [ev|env|outs]; simpl in *.
  - destruct (is_user_event ev); [|done].
    split; [by apply AppMore.step_cmds_well_formed | done].
  - destruct (TTSWorker.running (worker s)); [|done].
    destruct (OfflineTTSApp.cmd_queue (app s)) as [|cmd q] eqn:Hq.
    { simpl. by rewrite Hq. }
    simpl. inversion Hc; subst. split; [done|]. by apply handle_paths.
  - destruct (SystemSpec.process_worker_results_rest HAS_PYGAME outs
                (TTSWorker.result_queue (worker s)) (app s)) as [n Hn].
    pose proof (AppMore.process_worker_results_cmd_queue HAS_PYGAME outs
                  (TTSWorker.result_queue (worker s)) (app s)) as Hcmd.
    destruct (OfflineTTSApp.process_worker_results HAS_PYGAME outs
                (TTSWorker.result_queue (worker s)) (app s)) as [rest a'].
    simpl in *. subst rest. rewrite Hcmd. split; [done|].
    by apply Forall_drop.
Qed.

(** Polling never stalls.  As long as [mkstemp] returns real paths, every
    AudioReady that reaches the result queue carries a non-empty path,
    because the controller only enqueues well-formed commands; so the
    early return of the polling loop is never taken and each poll leaves
    the result queue empty. *)
Theorem polling_never_stalls sts outs :
  Forall (fun st => sound_step st = true) sts ->
  let s := run sts init in
  Forall (fun c => AppVocabulary.well_formed_cmd c = true)
    (OfflineTTSApp.cmd_queue (app s)) /\
  Forall (fun r => AppVocabulary.has_empty_path r = false)
    (TTSWorker.result_queue (worker s)) /\
  TTSWorker.result_queue (worker (step (poll outs) s)) = [].
Proof.
  intros Hsts. simpl.
  assert (Forall (fun c => AppVocabulary.well_formed_cmd c = true)
            (OfflineTTSApp.cmd_queue (app (run sts init))) /\
          Forall (fun r => AppVocabulary.has_empty_path r = false)
            (TTSWorker.result_queue (worker (run sts init)))) as [Hc Hr].
  { unfold System.run.
    assert (Forall (fun c => AppVocabulary.well_formed_cmd c = true)
              (OfflineTTSApp.cmd_queue (app init)) /\
            Forall (fun r => AppVocabulary.has_empty_path r = false)
              (TTSWorker.result_queue (worker init))) as Hinit
      by (split; repeat constructor).
    revert Hinit. generalize init as s.
    induction Hsts as [|st sts Hst _ IH]; intros s Hs; [done|].
    simpl. apply IH. by apply step_paths. }
  split; [done|]. split; [done|].
  pose proof (AppMore.process_worker_results_all HAS_PYGAME outs
                (TTSWorker.result_queue (worker (run sts init)))
                (app (run sts init)) Hr) as Hall.
  simpl.
  destruct (OfflineTTSApp.process_worker_results HAS_PYGAME outs
              (TTSWorker.result_queue (worker (run sts init)))
              (app (run sts init))) as [rest a'].
  simpl in *. done.
Qed.

Lemma step_running st s :
  keeps_window st = true ->
  (quit_cmd ∉ OfflineTTSApp.cmd_queue (app s)) /\
  TTSWorker.running (worker s) = true ->
  (quit_cmd ∉ OfflineTTSApp.cmd_queue (app (step st s))) /\
  TTSWorker.running (worker (step st s)) = true.
Proof.
  intros Hst [Hq Hrun]. destruct st as [ev|env|outs]; simpl in *.
  - destruct (is_user_event ev); [|done].
    split; [|done]. apply step_no_quit; [|done]. by intros ->.
  - rewrite Hrun.
    destruct (OfflineTTSApp.cmd_queue (app s)) as [|cmd q] eqn:Hcmds.
    { simpl. by rewrite Hcmds. }
    simpl. apply not_elem_of_cons in Hq as [Hne Hq]. split; [done|].
    assert (cmd <> quit_cmd) as Hcmd by congruence.
    pose proof (handle_running HAS_TTS env cmd (worker s) Hcmd) as Hkeep.
    simpl in Hkeep. by rewrite Hkeep.
  - pose proof (AppMore.process_worker_results_cmd_queue HAS_PYGAME outs
                  (TTSWorker.result_queue (worker s)) (app s)) as Hcmd.
    destruct (OfflineTTSApp.process_worker_results HAS_PYGAME outs
                (TTSWorker.result_queue (worker s)) (app s)) as [rest a'].
    simpl in *. by rewrite Hcmd.
Qed.

(** The worker thread only ends on Shutdown: as long as the window is not
    closed, no Shutdown is ever enqueued and the worker keeps running,
    whatever fails while it loads voices and generates speech. *)
Theorem worker_runs_until_window_closed sts :
  Forall (fun st => keeps_window st = true) sts ->
  let s := run sts init in
  (quit_cmd ∉ OfflineTTSApp.cmd_queue (app s)) /\
  TTSWorker.running (worker s) = true.
Proof.
  intros Hsts. simpl. unfold System.run.
  assert ((quit_cmd ∉ OfflineTTSApp.cmd_queue (app init)) /\
          TTSWorker.running (worker init) = true) as Hinit.
  { split; [apply not_elem_of_nil | done]. }
  revert Hinit. generalize init as s.
  induction Hsts as [|st sts Hst _ IH]; intros s Hs; [done|].
  simpl. apply IH. by apply step_running.
Qed.

End Threads.

Lemma polling_never_stalls_witness :
  TTSWorker.result_queue (worker (run true true session init)) =
    [log_result "Generating..."; log_result "Done (0.10s)";
     generation_complete "/tmp/tmpabc.wav" true;
     log_result "Generating..."; log_result "Done (0.10s)";
     log_result "Gen Error: disk full"] /\
  TTSWorker.result_queue
    (worker (step true true (poll []) (run true true session init))) = [].
Proof.
  split; [reflexivity|].
  assert (Forall (fun st => sound_step st = true) session) as Hs
    by (repeat constructor).
  destruct (polling_never_stalls true true session [] Hs) as (_ & _ & Hpoll).
  exact Hpoll.
Defined.

Lemma worker_runs_until_window_closed_witness :
  (quit_cmd ∉ OfflineTTSApp.cmd_queue (app (run true true session init))) /\
  TTSWorker.running (worker (run true true session init)) = true.
Proof.
  apply (worker_runs_until_window_closed true true session).
  repeat constructor.
Defined.

End SystemMore.
